(** * parroton-bot: message encoding and extra-reward distribution

    A shallow embedding of

    - [src/core/contracts/TonJettonTonStrategy.ts] (the strategy wrapper, and
      the vault wrapper that follows it in the same source file), and
    - [src/vault-extra-rewards-distribution.ts] (the reward orchestrator),

    together with the part of the cell builder of [@ton/core] that the
    wrappers call.  Bit strings are [list bool], most significant bit first;
    JavaScript [bigint] values and the integral [number] values the wrappers
    store are [Z]. *)

From Stdlib Require Import ZArith List Lia Bool String Ascii.
Import ListNotations.
Open Scope Z_scope.

(* ================================================================== *)
(** ** Failing computations *)

(** What a throwing builder call raises: a value that does not fit its field,
    or a cell whose 1023 bit / 4 reference budget is exceeded. *)
Inductive error : Type :=
| RangeError
| CellOverflow.

Inductive result (A : Type) : Type :=
| OK (a : A)
| Err (e : error).
Arguments OK {A} a.
Arguments Err {A} e.

Definition bind {A B : Type} (m : result A) (f : A -> result B) : result B :=
  match m with
  | OK a => f a
  | Err e => Err e
  end.

Notation "x <- m ;; k" := (bind m (fun x => k))
  (at level 61, m at next level, right associativity).
Notation "m >>= f" := (bind m f) (at level 50, left associativity).

(* ================================================================== *)
(** ** Cells and the builder of [@ton/core] *)

#[warnings="-register-all"] Inductive Cell : Type :=
| mkCell (bits : list bool) (refs : list Cell).

Definition c_bits (c : Cell) : list bool := let (b, _) := c in b.
Definition c_refs (c : Cell) : list Cell := let (_, r) := c in r.

Record Builder : Type := mkBuilder {
  b_bits : list bool;
  b_refs : list Cell
}.

Record Address : Type := mkAddress {
  workChain : Z;
  hash : Z            (* the 32-byte account hash, read as a big-endian number *)
}.

Definition MAX_BITS : Z := 1023.
Definition MAX_REFS : Z := 4.

Definition len {A : Type} (l : list A) : Z := Z.of_nat (List.length l).

(** The [n] low bits of [v], most significant first. *)
Fixpoint encUint (n : nat) (v : Z) : list bool :=
  match n with
  | O => []
  | S n' => Z.testbit v (Z.of_nat n') :: encUint n' v
  end.

Definition beginCell : Builder := mkBuilder [] [].

Definition endCell (b : Builder) : result Cell :=
  OK (mkCell (b_bits b) (b_refs b)).

Definition writeBits (bs : list bool) (b : Builder) : result Builder :=
  if len (b_bits b) + len bs <=? MAX_BITS
  then OK (mkBuilder (b_bits b ++ bs) (b_refs b))
  else Err CellOverflow.

(** [storeUint(value, bits)]: the value is checked against the width before
    anything is written. *)
Definition storeUint (v : Z) (n : nat) (b : Builder) : result Builder :=
  if (0 <=? v) && (v <? 2 ^ Z.of_nat n)
  then writeBits (encUint n v) b
  else Err RangeError.

(** [writeInt(value, bits)], two's complement. *)
Definition storeInt (v : Z) (n : nat) (b : Builder) : result Builder :=
  if (- 2 ^ (Z.of_nat n - 1) <=? v) && (v <? 2 ^ (Z.of_nat n - 1))
  then writeBits (encUint n (v mod 2 ^ Z.of_nat n)) b
  else Err RangeError.

Definition storeBit (x : bool) (b : Builder) : result Builder :=
  writeBits [x] b.

(** Number of bytes [writeVarUint] uses for a positive value:
    [ceil(v.toString(2).length / 8)]. *)
Definition sizeBytes (v : Z) : Z := (Z.log2 v + 1 + 7) / 8.

(** [storeCoins(amount)] is [writeVarUint(amount, 4)]: a 4-bit byte count,
    then that many bytes. *)
Definition storeCoins (v : Z) (b : Builder) : result Builder :=
  if v <? 0 then Err RangeError
  else if v =? 0 then storeUint 0 4 b
  else b1 <- storeUint (sizeBytes v) 4 b ;;
       storeUint v (Z.to_nat (8 * sizeBytes v)) b1.

(** [storeAddress(addr)] for a concrete address: tag [10], no anycast, the
    workchain as a signed byte, the 256-bit hash. *)
Definition storeAddress (a : Address) (b : Builder) : result Builder :=
  b1 <- storeUint 2 2 b ;;
  b2 <- storeUint 0 1 b1 ;;
  b3 <- storeInt (workChain a) 8 b2 ;;
  storeUint (hash a) 256 b3.

Definition storeRef (c : Cell) (b : Builder) : result Builder :=
  if len (b_refs b) <? MAX_REFS
  then OK (mkBuilder (b_bits b) (b_refs b ++ [c]))
  else Err CellOverflow.

(** [receiver.storeRef(arg)] where [arg] is itself a builder chain: JavaScript
    evaluates the receiver before the argument, so the receiver's failure
    wins. *)
Definition storeRefOf (arg : result Cell) (b : Builder) : result Builder :=
  c <- arg ;; storeRef c b.

(* ------------------------------------------------------------------ *)
(** *** Reading a cell back (the mirror of the builder) *)

Fixpoint decUintAcc (acc : Z) (bs : list bool) : Z :=
  match bs with
  | [] => acc
  | x :: bs' => decUintAcc (2 * acc + Z.b2z x) bs'
  end.

Definition decUint (bs : list bool) : Z := decUintAcc 0 bs.

(** [loadUint(n)]: the next [n] bits as a number and the remaining bits;
    [None] on underflow. *)
Definition loadUint (n : nat) (bs : list bool) : option (Z * list bool) :=
  if (Z.of_nat n <=? len bs)
  then Some (decUint (firstn n bs), skipn n bs)
  else None.

Definition loadCoins (bs : list bool) : option (Z * list bool) :=
  match loadUint 4 bs with
  | Some (l, r) => loadUint (Z.to_nat (8 * l)) r
  | None => None
  end.

(** The pure encodings the builder appends when it succeeds. *)
Definition encCoins (v : Z) : list bool :=
  if v =? 0 then encUint 4 0
  else encUint 4 (sizeBytes v) ++ encUint (Z.to_nat (8 * sizeBytes v)) v.

Definition encAddress (a : Address) : list bool :=
  encUint 2 2 ++ encUint 1 0 ++ encUint 8 (workChain a mod 2 ^ 8)
  ++ encUint 256 (hash a).

(** The builder after a successful write of [bs]. *)
Definition append (bs : list bool) (b : Builder) : Builder :=
  mkBuilder (b_bits b ++ bs) (b_refs b).

(** Domains of the field types. *)
Definition uint_ok (n : Z) (v : Z) : Prop := 0 <= v < 2 ^ n.
Definition coins_ok (v : Z) : Prop := 0 <= v < 2 ^ 120.
Definition address_ok (a : Address) : Prop :=
  -128 <= workChain a < 128 /\ 0 <= hash a < 2 ^ 256.

(* ================================================================== *)
(** ** Outbound messages *)

(** [SendMode.PAY_GAS_SEPARATELY] *)
Definition PAY_GAS_SEPARATELY : Z := 1.

(** What a [send*] method hands to [provider.internal]. *)
Record InternalMessage : Type := mkInternal {
  value : Z;
  sendMode : Z;
  body : Cell
}.

(** JavaScript's [q ?? d] on an optional number. *)
Definition nullish (q : option Z) (d : Z) : Z :=
  match q with
  | Some v => v
  | None => d
  end.
Notation "q ?? d" := (nullish q d) (at level 40, no associativity).

(** The [Opcodes] object of the strategy wrapper, in source order. *)
Module Opcodes.
Definition transfer_notification : Z := 0x7362d09c.
Definition internal_transfer : Z := 0x178d4519.
Definition excesses : Z := 0xd53276db.
Definition transfer : Z := 0xf8a7ea5.
Definition set_deposit_lp_wallet_address : Z := 0x7719b84f.
Definition set_jetton_wallet_address : Z := 0x288b5223.
Definition reinvest : Z := 0x812d4e3.

Definition entries : list (string * Z) :=
    [ ("transfer_notification", transfer_notification);
      ("internal_transfer", internal_transfer);
      ("excesses", excesses);
      ("transfer", transfer);
      ("set_deposit_lp_wallet_address", set_deposit_lp_wallet_address);
      ("set_jetton_wallet_address", set_jetton_wallet_address);
      ("reinvest", reinvest) ]%string.
End Opcodes.

(* ------------------------------------------------------------------ *)
(** *** The strategy wrapper *)

Module TonJettonTonStrategy.

Record TonJettonTonStrategyConfig : Type := mkConfig {
    vaultAddress : Address;
    jettonMasterAddress : Address;
    poolAddress : Address;
    poolType : Z;
    depositLpWalletAddress : Address;
    jettonWalletAddress : Address;
    adminAddress : Address;
    jettonVaultAddress : Address;
    nativeVaultAddress : Address;
    tempUpgrade : Cell
  }.

Definition tonJettonTonStrategyConfigToCell
      (config : TonJettonTonStrategyConfig) : result Cell :=
    OK beginCell
      >>= storeAddress (vaultAddress config)
      >>= storeAddress (jettonMasterAddress config)
      >>= storeAddress (poolAddress config)
      >>= storeUint (poolType config) 1
      >>= storeRefOf
            (OK beginCell
               >>= storeAddress (depositLpWalletAddress config)
               >>= storeAddress (jettonWalletAddress config)
               >>= storeAddress (adminAddress config)
               >>= endCell)
      >>= storeRefOf
            (OK beginCell
               >>= storeAddress (jettonVaultAddress config)
               >>= storeAddress (nativeVaultAddress config)
               >>= endCell)
      >>= storeRef (tempUpgrade config)
      >>= endCell.

Definition sendDeploy (value : Z) : result InternalMessage :=
    body <- OK beginCell >>= endCell ;;
    OK (mkInternal value PAY_GAS_SEPARATELY body).

Module ReinvestOpts.
Record t : Type := mk {
      value : Z;
      totalReward : Z;
      amountToSwap : Z;
      limit : Z;
      tonTargetBalance : Z;
      jettonTargetBalance : Z;
      deadline : Z;
      queryId : option Z
    }.
End ReinvestOpts.

Definition sendReinvest (opts : ReinvestOpts.t) : result InternalMessage :=
    body <- OK beginCell
              >>= storeCoins (ReinvestOpts.totalReward opts)
              >>= storeRefOf
                    (OK beginCell
                       >>= storeUint Opcodes.reinvest 32
                       >>= storeUint (ReinvestOpts.queryId opts ?? 0) 64
                       >>= storeCoins (ReinvestOpts.amountToSwap opts)
                       >>= storeCoins (ReinvestOpts.limit opts)
                       >>= storeUint (ReinvestOpts.deadline opts) 32
                       >>= storeCoins (ReinvestOpts.tonTargetBalance opts)
                       >>= storeCoins (ReinvestOpts.jettonTargetBalance opts)
                       >>= endCell)
              >>= endCell ;;
    OK (mkInternal (ReinvestOpts.value opts) PAY_GAS_SEPARATELY body).

Module SetJettonWalletAddressOpts.
Record t : Type := mk {
      value : Z;
      walletAddress : Address;
      queryId : option Z
    }.
End SetJettonWalletAddressOpts.

Definition sendSetJettonWalletAddress (opts : SetJettonWalletAddressOpts.t)
      : result InternalMessage :=
    body <- OK beginCell
              >>= storeUint Opcodes.set_jetton_wallet_address 32
              >>= storeUint (SetJettonWalletAddressOpts.queryId opts ?? 0) 64
              >>= storeAddress (SetJettonWalletAddressOpts.walletAddress opts)
              >>= endCell ;;
    OK (mkInternal (SetJettonWalletAddressOpts.value opts)
                   PAY_GAS_SEPARATELY body).

Module SetDepositLpWalletAddressOpts.
Record t : Type := mk {
      value : Z;
      walletAddress : Address;
      queryId : option Z
    }.
End SetDepositLpWalletAddressOpts.

Definition sendSetDepositLpWalletAddress
      (opts : SetDepositLpWalletAddressOpts.t) : result InternalMessage :=
    body <- OK beginCell
              >>= storeUint Opcodes.set_deposit_lp_wallet_address 32
              >>= storeUint (SetDepositLpWalletAddressOpts.queryId opts ?? 0) 64
              >>= storeAddress (SetDepositLpWalletAddressOpts.walletAddress opts)
              >>= endCell ;;
    OK (mkInternal (SetDepositLpWalletAddressOpts.value opts)
                   PAY_GAS_SEPARATELY body).

End TonJettonTonStrategy.

(* ------------------------------------------------------------------ *)
(** *** The vault wrapper *)

Module Vault.

Record VaultConfig : Type := mkConfig {
  distributionPoolAddress : Address;
  sharesTotalSupply : Z;
  depositedLp : Z;
  isLocked : Z;
  managementFeeRate : Z;
  managementFee : Z;
  depositLpWalletAddress : Address;
  adminAddress : Address;
  managerAddress : Address;
  strategyAddress : Address;
  sharesWalletCode : Cell;
  tempUpgrade : Cell
}.

Definition vaultConfigToCell (config : VaultConfig) : result Cell :=
  OK beginCell
    >>= storeAddress (distributionPoolAddress config)
    >>= storeCoins (sharesTotalSupply config)
    >>= storeCoins (depositedLp config)
    >>= storeUint (isLocked config) 1
    >>= storeCoins (managementFeeRate config)
    >>= storeCoins (managementFee config)
    >>= storeAddress (depositLpWalletAddress config)
    >>= storeRefOf
          (OK beginCell
             >>= storeAddress (adminAddress config)
             >>= storeAddress (managerAddress config)
             >>= storeAddress (strategyAddress config)
             >>= endCell)
    >>= storeRef (sharesWalletCode config)
    >>= storeRef (tempUpgrade config)
    >>= endCell.

Definition MANAGEMENT_FEE_PRECISION : Z := 10000.

Module OPS.
Definition deposit : Z := 0x95db9d39.
Definition withdraw : Z := 0xb5de5f9e.
Definition init : Z := 0xc674e474.
Definition reinvest : Z := 0x812d4e3.
Definition complete_reinvest : Z := 0x973280f5.
Definition withdraw_management_fee : Z := 0xef9e917b.
Definition set_strategy_address : Z := 0xa3d7611f.
Definition set_management_fee_rate : Z := 0xc25ffa5f.
Definition set_is_locked : Z := 0xe2cde084.
Definition transfer_notification : Z := 0x7362d09c.
Definition internal_transfer : Z := 0x178d4519.
Definition burn_notification : Z := 0x7bdd97de.
Definition excesses : Z := 0xd53276db.
Definition transfer_bounce_invalid_request : Z := 0x19727ea8.
Definition transfer : Z := 0xf8a7ea5.

Definition entries : list (string * Z) :=
  [ ("deposit", deposit);
    ("withdraw", withdraw);
    ("init", init);
    ("reinvest", reinvest);
    ("complete_reinvest", complete_reinvest);
    ("withdraw_management_fee", withdraw_management_fee);
    ("set_strategy_address", set_strategy_address);
    ("set_management_fee_rate", set_management_fee_rate);
    ("set_is_locked", set_is_locked);
    ("transfer_notification", transfer_notification);
    ("internal_transfer", internal_transfer);
    ("burn_notification", burn_notification);
    ("excesses", excesses);
    ("transfer_bounce_invalid_request", transfer_bounce_invalid_request);
    ("transfer", transfer) ]%string.
End OPS.

Module EXIT_CODES.
Definition WRONG_OP : Z := 80.
Definition WRONG_WORKCHAIN : Z := 81.
Definition INVALID_AMOUNT : Z := 82.
Definition INVALID_DEPOSIT_TOKEN : Z := 83.
Definition INSUFFICIENT_GAS : Z := 84.
Definition INVALID_CALLER : Z := 85.
Definition ZERO_OUTPUT : Z := 86.
Definition INSUFFICIENT_LP_BALANCE : Z := 87.
Definition INSUFFICIENT_LP_AMOUNT : Z := 88.
Definition INSUFFICIENT_REWARDS_BALANCE : Z := 89.
Definition INVALID_REINVEST_SENDER : Z := 90.
Definition WRONG_MANAGER_OP : Z := 91.
Definition INSUFFICIENT_MANAGEMENT_FEE : Z := 92.
Definition INSUFFICIENT_SHARES_BALANCE : Z := 93.
Definition MANAGEMENT_FEE_RATE_OUT_OF_BOUNDS : Z := 94.

Definition entries : list (string * Z) :=
  [ ("WRONG_OP", WRONG_OP);
    ("WRONG_WORKCHAIN", WRONG_WORKCHAIN);
    ("INVALID_AMOUNT", INVALID_AMOUNT);
    ("INVALID_DEPOSIT_TOKEN", INVALID_DEPOSIT_TOKEN);
    ("INSUFFICIENT_GAS", INSUFFICIENT_GAS);
    ("INVALID_CALLER", INVALID_CALLER);
    ("ZERO_OUTPUT", ZERO_OUTPUT);
    ("INSUFFICIENT_LP_BALANCE", INSUFFICIENT_LP_BALANCE);
    ("INSUFFICIENT_LP_AMOUNT", INSUFFICIENT_LP_AMOUNT);
    ("INSUFFICIENT_REWARDS_BALANCE", INSUFFICIENT_REWARDS_BALANCE);
    ("INVALID_REINVEST_SENDER", INVALID_REINVEST_SENDER);
    ("WRONG_MANAGER_OP", WRONG_MANAGER_OP);
    ("INSUFFICIENT_MANAGEMENT_FEE", INSUFFICIENT_MANAGEMENT_FEE);
    ("INSUFFICIENT_SHARES_BALANCE", INSUFFICIENT_SHARES_BALANCE);
    ("MANAGEMENT_FEE_RATE_OUT_OF_BOUNDS", MANAGEMENT_FEE_RATE_OUT_OF_BOUNDS)
  ]%string.
End EXIT_CODES.

Definition sendDeploy (value : Z) : result InternalMessage :=
  body <- OK beginCell >>= endCell ;;
  OK (mkInternal value PAY_GAS_SEPARATELY body).

Definition prepareDepositPayload : result Cell :=
  OK beginCell >>= storeUint OPS.deposit 32 >>= endCell.

Module DepositNotificationOpts.
Record t : Type := mk {
  jettonAmount : Z;
  fromAddress : Address;
  value : Z;
  queryId : option Z
}.
End DepositNotificationOpts.

Definition sendDepositNotification (opts : DepositNotificationOpts.t)
    : result InternalMessage :=
  transferPayload <- prepareDepositPayload ;;
  body <- OK beginCell
            >>= storeUint OPS.transfer_notification 32
            >>= storeUint (DepositNotificationOpts.queryId opts ?? 0) 64
            >>= storeCoins (DepositNotificationOpts.jettonAmount opts)
            >>= storeAddress (DepositNotificationOpts.fromAddress opts)
            >>= storeBit true
            >>= storeRef transferPayload
            >>= endCell ;;
  OK (mkInternal (DepositNotificationOpts.value opts) PAY_GAS_SEPARATELY body).

Module ReinvestOpts.
Record t : Type := mk {
  value : Z;
  totalReward : Z;
  amountToSwap : Z;
  limit : Z;
  tonTargetBalance : Z;
  depositFee : Z;
  depositFwdFee : Z;
  transferFee : Z;
  jettonTargetBalance : Z;
  deadline : Z;
  queryId : option Z
}.
End ReinvestOpts.

Definition sendReinvest (opts : ReinvestOpts.t) : result InternalMessage :=
  body <- OK beginCell
            >>= storeUint OPS.reinvest 32
            >>= storeUint (ReinvestOpts.queryId opts ?? 0) 64
            >>= storeCoins (ReinvestOpts.totalReward opts)
            >>= storeRefOf
                  (OK beginCell
                     >>= storeCoins (ReinvestOpts.amountToSwap opts)
                     >>= storeCoins (ReinvestOpts.limit opts)
                     >>= storeUint (ReinvestOpts.deadline opts) 32
                     >>= storeCoins (ReinvestOpts.tonTargetBalance opts)
                     >>= storeCoins (ReinvestOpts.jettonTargetBalance opts)
                     >>= storeCoins (ReinvestOpts.depositFee opts)
                     >>= storeCoins (ReinvestOpts.depositFwdFee opts)
                     >>= storeCoins (ReinvestOpts.transferFee opts)
                     >>= endCell)
            >>= endCell ;;
  OK (mkInternal (ReinvestOpts.value opts) PAY_GAS_SEPARATELY body).

Module SetStrategyAddressOpts.
Record t : Type := mk {
  value : Z;
  strategyAddress : Address;
  queryId : option Z
}.
End SetStrategyAddressOpts.

Definition sendSetStrategyAddress (opts : SetStrategyAddressOpts.t)
    : result InternalMessage :=
  body <- OK beginCell
            >>= storeUint OPS.set_strategy_address 32
            >>= storeUint (SetStrategyAddressOpts.queryId opts ?? 0) 64
            >>= storeAddress (SetStrategyAddressOpts.strategyAddress opts)
            >>= endCell ;;
  OK (mkInternal (SetStrategyAddressOpts.value opts) PAY_GAS_SEPARATELY body).

Module WithdrawManagementFeeOpts.
Record t : Type := mk {
  value : Z;
  receiver : Address;
  amount : Z;
  queryId : option Z
}.
End WithdrawManagementFeeOpts.

Definition sendWithdrawManagementFee (opts : WithdrawManagementFeeOpts.t)
    : result InternalMessage :=
  body <- OK beginCell
            >>= storeUint OPS.withdraw_management_fee 32
            >>= storeUint (WithdrawManagementFeeOpts.queryId opts ?? 0) 64
            >>= storeAddress (WithdrawManagementFeeOpts.receiver opts)
            >>= storeCoins (WithdrawManagementFeeOpts.amount opts)
            >>= endCell ;;
  OK (mkInternal (WithdrawManagementFeeOpts.value opts)
                 PAY_GAS_SEPARATELY body).

Module SetIsLockedOpts.
Record t : Type := mk {
  value : Z;
  isLocked : Z;
  queryId : option Z
}.
End SetIsLockedOpts.

Definition sendSetIsLocked (opts : SetIsLockedOpts.t) : result InternalMessage :=
  body <- OK beginCell
            >>= storeUint OPS.set_is_locked 32
            >>= storeUint (SetIsLockedOpts.queryId opts ?? 0) 64
            >>= storeUint (SetIsLockedOpts.isLocked opts) 1
            >>= endCell ;;
  OK (mkInternal (SetIsLockedOpts.value opts) PAY_GAS_SEPARATELY body).

Module SetManagementFeeRateOpts.
Record t : Type := mk {
  value : Z;
  managementFeeRate : Z;
  queryId : option Z
}.
End SetManagementFeeRateOpts.

Definition sendSetManagementFeeRate (opts : SetManagementFeeRateOpts.t)
    : result InternalMessage :=
  body <- OK beginCell
            >>= storeUint OPS.set_management_fee_rate 32
            >>= storeUint (SetManagementFeeRateOpts.queryId opts ?? 0) 64
            >>= storeUint (SetManagementFeeRateOpts.managementFeeRate opts) 16
            >>= endCell ;;
  OK (mkInternal (SetManagementFeeRateOpts.value opts)
                 PAY_GAS_SEPARATELY body).

End Vault.

(* ------------------------------------------------------------------ *)
(** *** The message builders, as one family *)

Inductive BuilderCall : Type :=
| StrategyReinvest (o : TonJettonTonStrategy.ReinvestOpts.t)
| StrategySetJettonWalletAddress
    (o : TonJettonTonStrategy.SetJettonWalletAddressOpts.t)
| StrategySetDepositLpWalletAddress
    (o : TonJettonTonStrategy.SetDepositLpWalletAddressOpts.t)
| VaultDepositNotification (o : Vault.DepositNotificationOpts.t)
| VaultReinvest (o : Vault.ReinvestOpts.t)
| VaultSetStrategyAddress (o : Vault.SetStrategyAddressOpts.t)
| VaultWithdrawManagementFee (o : Vault.WithdrawManagementFeeOpts.t)
| VaultSetIsLocked (o : Vault.SetIsLockedOpts.t)
| VaultSetManagementFeeRate (o : Vault.SetManagementFeeRateOpts.t).

Definition build (c : BuilderCall) : result InternalMessage :=
  match c with
  | StrategyReinvest o => TonJettonTonStrategy.sendReinvest o
  | StrategySetJettonWalletAddress o =>
      TonJettonTonStrategy.sendSetJettonWalletAddress o
  | StrategySetDepositLpWalletAddress o =>
      TonJettonTonStrategy.sendSetDepositLpWalletAddress o
  | VaultDepositNotification o => Vault.sendDepositNotification o
  | VaultReinvest o => Vault.sendReinvest o
  | VaultSetStrategyAddress o => Vault.sendSetStrategyAddress o
  | VaultWithdrawManagementFee o => Vault.sendWithdrawManagementFee o
  | VaultSetIsLocked o => Vault.sendSetIsLocked o
  | VaultSetManagementFeeRate o => Vault.sendSetManagementFeeRate o
  end.

(** The [queryId] a call was given, if any. *)
Definition queryIdOf (c : BuilderCall) : option Z :=
  match c with
  | StrategyReinvest o => TonJettonTonStrategy.ReinvestOpts.queryId o
  | StrategySetJettonWalletAddress o =>
      TonJettonTonStrategy.SetJettonWalletAddressOpts.queryId o
  | StrategySetDepositLpWalletAddress o =>
      TonJettonTonStrategy.SetDepositLpWalletAddressOpts.queryId o
  | VaultDepositNotification o => Vault.DepositNotificationOpts.queryId o
  | VaultReinvest o => Vault.ReinvestOpts.queryId o
  | VaultSetStrategyAddress o => Vault.SetStrategyAddressOpts.queryId o
  | VaultWithdrawManagementFee o => Vault.WithdrawManagementFeeOpts.queryId o
  | VaultSetIsLocked o => Vault.SetIsLockedOpts.queryId o
  | VaultSetManagementFeeRate o => Vault.SetManagementFeeRateOpts.queryId o
  end.

(** Every field except [queryId] is in the domain of the field type it is
    stored with. *)
Definition fields_ok (c : BuilderCall) : Prop :=
  match c with
  | StrategyReinvest o =>
      coins_ok (TonJettonTonStrategy.ReinvestOpts.totalReward o)
      /\ coins_ok (TonJettonTonStrategy.ReinvestOpts.amountToSwap o)
      /\ coins_ok (TonJettonTonStrategy.ReinvestOpts.limit o)
      /\ uint_ok 32 (TonJettonTonStrategy.ReinvestOpts.deadline o)
      /\ coins_ok (TonJettonTonStrategy.ReinvestOpts.tonTargetBalance o)
      /\ coins_ok (TonJettonTonStrategy.ReinvestOpts.jettonTargetBalance o)
  | StrategySetJettonWalletAddress o =>
      address_ok (TonJettonTonStrategy.SetJettonWalletAddressOpts.walletAddress o)
  | StrategySetDepositLpWalletAddress o =>
      address_ok
        (TonJettonTonStrategy.SetDepositLpWalletAddressOpts.walletAddress o)
  | VaultDepositNotification o =>
      coins_ok (Vault.DepositNotificationOpts.jettonAmount o)
      /\ address_ok (Vault.DepositNotificationOpts.fromAddress o)
  | VaultReinvest o =>
      coins_ok (Vault.ReinvestOpts.totalReward o)
      /\ coins_ok (Vault.ReinvestOpts.amountToSwap o)
      /\ coins_ok (Vault.ReinvestOpts.limit o)
      /\ uint_ok 32 (Vault.ReinvestOpts.deadline o)
      /\ coins_ok (Vault.ReinvestOpts.tonTargetBalance o)
      /\ coins_ok (Vault.ReinvestOpts.jettonTargetBalance o)
      /\ coins_ok (Vault.ReinvestOpts.depositFee o)
      /\ coins_ok (Vault.ReinvestOpts.depositFwdFee o)
      /\ coins_ok (Vault.ReinvestOpts.transferFee o)
  | VaultSetStrategyAddress o =>
      address_ok (Vault.SetStrategyAddressOpts.strategyAddress o)
  | VaultWithdrawManagementFee o =>
      address_ok (Vault.WithdrawManagementFeeOpts.receiver o)
      /\ coins_ok (Vault.WithdrawManagementFeeOpts.amount o)
  | VaultSetIsLocked o => uint_ok 1 (Vault.SetIsLockedOpts.isLocked o)
  | VaultSetManagementFeeRate o =>
      uint_ok 16 (Vault.SetManagementFeeRateOpts.managementFeeRate o)
  end.

Definition queryId_ok (q : option Z) : Prop :=
  match q with
  | None => True
  | Some v => uint_ok 64 v
  end.

(** A valid options record: every field fits the field it is stored in. *)
Definition valid_call (c : BuilderCall) : Prop :=
  queryId_ok (queryIdOf c) /\ fields_ok c.

(** The cell of a message body in which the builder writes the opcode and the
    query id: the body itself, except for the strategy's reinvest, which
    writes them into the body's only child cell. *)
Definition header_cell (c : BuilderCall) (body : Cell) : option Cell :=
  match c with
  | StrategyReinvest _ => nth_error (c_refs body) 0
  | _ => Some body
  end.

(** The code's opcode constant for each builder. *)
Definition opcodeOf (c : BuilderCall) : Z :=
  match c with
  | StrategyReinvest _ => Opcodes.reinvest
  | StrategySetJettonWalletAddress _ => Opcodes.set_jetton_wallet_address
  | StrategySetDepositLpWalletAddress _ =>
      Opcodes.set_deposit_lp_wallet_address
  | VaultDepositNotification _ => Vault.OPS.transfer_notification
  | VaultReinvest _ => Vault.OPS.reinvest
  | VaultSetStrategyAddress _ => Vault.OPS.set_strategy_address
  | VaultWithdrawManagementFee _ => Vault.OPS.withdraw_management_fee
  | VaultSetIsLocked _ => Vault.OPS.set_is_locked
  | VaultSetManagementFeeRate _ => Vault.OPS.set_management_fee_rate
  end.

(* ------------------------------------------------------------------ *)
(** *** The documented tables *)

Fixpoint lookup (k : string) (l : list (string * Z)) : option Z :=
  match l with
  | [] => None
  | (k', v) :: l' => if String.eqb k k' then Some v else lookup k l'
  end.

(** The opcode table as the interface documentation lists it. *)
Definition documented_opcodes : list (string * Z) :=
  [ ("transfer_notification", 0x7362d09c);
    ("internal_transfer", 0x178d4519);
    ("excesses", 0xd53276db);
    ("transfer", 0xf8a7ea5);
    ("deposit", 0x95db9d39);
    ("withdraw", 0xb5de5f9e);
    ("init", 0xc674e474);
    ("reinvest", 0x812d4e3);
    ("complete_reinvest", 0x973280f5);
    ("withdraw_management_fee", 0xef9e917b);
    ("set_strategy_address", 0xa3d7611f);
    ("set_management_fee_rate", 0xc25ffa5f);
    ("set_is_locked", 0xe2cde084);
    ("burn_notification", 0x7bdd97de);
    ("transfer_bounce_invalid_request", 0x19727ea8);
    ("set_deposit_lp_wallet_address", 0x7719b84f);
    ("set_jetton_wallet_address", 0x288b5223) ]%string.

(** The operation each builder is documented to invoke. *)
Definition operationOf (c : BuilderCall) : string :=
  match c with
  | StrategyReinvest _ | VaultReinvest _ => "reinvest"
  | StrategySetJettonWalletAddress _ => "set_jetton_wallet_address"
  | StrategySetDepositLpWalletAddress _ => "set_deposit_lp_wallet_address"
  | VaultDepositNotification _ => "transfer_notification"
  | VaultSetStrategyAddress _ => "set_strategy_address"
  | VaultWithdrawManagementFee _ => "withdraw_management_fee"
  | VaultSetIsLocked _ => "set_is_locked"
  | VaultSetManagementFeeRate _ => "set_management_fee_rate"
  end%string.

(** The exit codes as documented: the meanings in order, numbered from 80. *)
Definition documented_exit_meanings : list string :=
  [ "WRONG_OP"; "WRONG_WORKCHAIN"; "INVALID_AMOUNT"; "INVALID_DEPOSIT_TOKEN";
    "INSUFFICIENT_GAS"; "INVALID_CALLER"; "ZERO_OUTPUT";
    "INSUFFICIENT_LP_BALANCE"; "INSUFFICIENT_LP_AMOUNT";
    "INSUFFICIENT_REWARDS_BALANCE"; "INVALID_REINVEST_SENDER";
    "WRONG_MANAGER_OP"; "INSUFFICIENT_MANAGEMENT_FEE";
    "INSUFFICIENT_SHARES_BALANCE"; "MANAGEMENT_FEE_RATE_OUT_OF_BOUNDS" ]%string.

Fixpoint number_from (n : Z) (l : list string) : list (string * Z) :=
  match l with
  | [] => []
  | k :: l' => (k, n) :: number_from (n + 1) l'
  end.

(* ------------------------------------------------------------------ *)
(** *** Reading message bodies field by field *)

Inductive Field : Type :=
| FUint (n : nat)
| FCoins
| FAddress
| FBit.

(** [loadAddress]: tag [10], no anycast, signed workchain, hash. *)
Definition loadAddress (bs : list bool) : option (Address * list bool) :=
  match loadUint 2 bs with
  | Some (2, r1) =>
      match loadUint 1 r1 with
      | Some (0, r2) =>
          match loadUint 8 r2 with
          | Some (w, r3) =>
              match loadUint 256 r3 with
              | Some (h, r4) =>
                  Some (mkAddress (if w <? 128 then w else w - 256) h, r4)
              | None => None
              end
          | None => None
          end
      | _ => None
      end
  | _ => None
  end.

(** A decoded flat field. *)
Inductive FieldValue : Type :=
| VNum (v : Z)
| VAddr (a : Address).

Definition readField (f : Field) (bs : list bool)
    : option (FieldValue * list bool) :=
  match f with
  | FUint n =>
      match loadUint n bs with
      | Some (v, r) => Some (VNum v, r)
      | None => None
      end
  | FCoins =>
      match loadCoins bs with
      | Some (v, r) => Some (VNum v, r)
      | None => None
      end
  | FAddress =>
      match loadAddress bs with
      | Some (a, r) => Some (VAddr a, r)
      | None => None
      end
  | FBit =>
      match loadUint 1 bs with
      | Some (v, r) => Some (VNum v, r)
      | None => None
      end
  end.

(** Read the flat fields of a cell against a schema; succeeds only when the
    schema consumes every bit. *)
Fixpoint readFields (fs : list Field) (bs : list bool)
    : option (list FieldValue) :=
  match fs with
  | [] => match bs with [] => Some [] | _ => None end
  | f :: fs' =>
      match readField f bs with
      | Some (v, r) =>
          match readFields fs' r with
          | Some vs => Some (v :: vs)
          | None => None
          end
      | None => None
      end
  end.

(** The pure encoding of a list of fields. *)
Definition encField (f : Field) (v : FieldValue) : list bool :=
  match f, v with
  | FUint n, VNum x => encUint n x
  | FCoins, VNum x => encCoins x
  | FAddress, VAddr a => encAddress a
  | FBit, VNum x => encUint 1 x
  | _, _ => []
  end.

Definition field_ok (f : Field) (v : FieldValue) : Prop :=
  match f, v with
  | FUint n, VNum x => uint_ok (Z.of_nat n) x
  | FCoins, VNum x => coins_ok x
  | FAddress, VAddr a => address_ok a
  | FBit, VNum x => uint_ok 1 x
  | _, _ => False
  end.

Fixpoint encFields (fs : list Field) (vs : list FieldValue) : list bool :=
  match fs, vs with
  | f :: fs', v :: vs' => encField f v ++ encFields fs' vs'
  | _, _ => []
  end.

Fixpoint fields_in_domain (fs : list Field) (vs : list FieldValue) : Prop :=
  match fs, vs with
  | [], [] => True
  | f :: fs', v :: vs' => field_ok f v /\ fields_in_domain fs' vs'
  | _, _ => False
  end.

(** The flat-field schema and values of each builder's body, and of its child
    cell where it has one. *)
Definition outerSchema (c : BuilderCall) : list Field :=
  match c with
  | StrategyReinvest _ => [FCoins]
  | StrategySetJettonWalletAddress _
  | StrategySetDepositLpWalletAddress _
  | VaultSetStrategyAddress _ => [FUint 32; FUint 64; FAddress]
  | VaultDepositNotification _ => [FUint 32; FUint 64; FCoins; FAddress; FBit]
  | VaultReinvest _ => [FUint 32; FUint 64; FCoins]
  | VaultWithdrawManagementFee _ => [FUint 32; FUint 64; FAddress; FCoins]
  | VaultSetIsLocked _ => [FUint 32; FUint 64; FUint 1]
  | VaultSetManagementFeeRate _ => [FUint 32; FUint 64; FUint 16]
  end.

Definition outerValues (c : BuilderCall) : list FieldValue :=
  let op := VNum (opcodeOf c) in
  let q := VNum (queryIdOf c ?? 0) in
  match c with
  | StrategyReinvest o =>
      [VNum (TonJettonTonStrategy.ReinvestOpts.totalReward o)]
  | StrategySetJettonWalletAddress o =>
      [op; q;
       VAddr (TonJettonTonStrategy.SetJettonWalletAddressOpts.walletAddress o)]
  | StrategySetDepositLpWalletAddress o =>
      [op; q;
       VAddr
         (TonJettonTonStrategy.SetDepositLpWalletAddressOpts.walletAddress o)]
  | VaultDepositNotification o =>
      [op; q; VNum (Vault.DepositNotificationOpts.jettonAmount o);
       VAddr (Vault.DepositNotificationOpts.fromAddress o); VNum 1]
  | VaultReinvest o => [op; q; VNum (Vault.ReinvestOpts.totalReward o)]
  | VaultSetStrategyAddress o =>
      [op; q; VAddr (Vault.SetStrategyAddressOpts.strategyAddress o)]
  | VaultWithdrawManagementFee o =>
      [op; q; VAddr (Vault.WithdrawManagementFeeOpts.receiver o);
       VNum (Vault.WithdrawManagementFeeOpts.amount o)]
  | VaultSetIsLocked o => [op; q; VNum (Vault.SetIsLockedOpts.isLocked o)]
  | VaultSetManagementFeeRate o =>
      [op; q; VNum (Vault.SetManagementFeeRateOpts.managementFeeRate o)]
  end.

Definition childSchema (c : BuilderCall) : option (list Field) :=
  match c with
  | StrategyReinvest _ =>
      Some [FUint 32; FUint 64; FCoins; FCoins; FUint 32; FCoins; FCoins]
  | VaultDepositNotification _ => Some [FUint 32]
  | VaultReinvest _ =>
      Some [FCoins; FCoins; FUint 32; FCoins; FCoins; FCoins; FCoins; FCoins]
  | _ => None
  end.

Definition childValues (c : BuilderCall) : list FieldValue :=
  match c with
  | StrategyReinvest o =>
      [VNum (opcodeOf c); VNum (queryIdOf c ?? 0);
       VNum (TonJettonTonStrategy.ReinvestOpts.amountToSwap o);
       VNum (TonJettonTonStrategy.ReinvestOpts.limit o);
       VNum (TonJettonTonStrategy.ReinvestOpts.deadline o);
       VNum (TonJettonTonStrategy.ReinvestOpts.tonTargetBalance o);
       VNum (TonJettonTonStrategy.ReinvestOpts.jettonTargetBalance o)]
  | VaultDepositNotification _ => [VNum Vault.OPS.deposit]
  | VaultReinvest o =>
      [VNum (Vault.ReinvestOpts.amountToSwap o);
       VNum (Vault.ReinvestOpts.limit o);
       VNum (Vault.ReinvestOpts.deadline o);
       VNum (Vault.ReinvestOpts.tonTargetBalance o);
       VNum (Vault.ReinvestOpts.jettonTargetBalance o);
       VNum (Vault.ReinvestOpts.depositFee o);
       VNum (Vault.ReinvestOpts.depositFwdFee o);
       VNum (Vault.ReinvestOpts.transferFee o)]
  | _ => []
  end.

(** The cell a builder produces when every store succeeds. *)
Definition layout (c : BuilderCall) : Cell :=
  mkCell (encFields (outerSchema c) (outerValues c))
         match childSchema c with
         | Some fs => [mkCell (encFields fs (childValues c)) []]
         | None => []
         end.

Definition valueOf (c : BuilderCall) : Z :=
  match c with
  | StrategyReinvest o => TonJettonTonStrategy.ReinvestOpts.value o
  | StrategySetJettonWalletAddress o =>
      TonJettonTonStrategy.SetJettonWalletAddressOpts.value o
  | StrategySetDepositLpWalletAddress o =>
      TonJettonTonStrategy.SetDepositLpWalletAddressOpts.value o
  | VaultDepositNotification o => Vault.DepositNotificationOpts.value o
  | VaultReinvest o => Vault.ReinvestOpts.value o
  | VaultSetStrategyAddress o => Vault.SetStrategyAddressOpts.value o
  | VaultWithdrawManagementFee o => Vault.WithdrawManagementFeeOpts.value o
  | VaultSetIsLocked o => Vault.SetIsLockedOpts.value o
  | VaultSetManagementFeeRate o => Vault.SetManagementFeeRateOpts.value o
  end.

(** The reading of a reinvest body under which its outer cell holds nothing
    but the opcode, or the opcode and the query id. *)
Definition outer_is_header_only (c : BuilderCall) (body : Cell) : Prop :=
  readFields [FUint 32] (c_bits body) = Some [VNum (opcodeOf c)]
  \/ readFields [FUint 32; FUint 64] (c_bits body)
     = Some [VNum (opcodeOf c); VNum (queryIdOf c ?? 0)].

(** Sample calls: one TON of reward, half of it swapped. *)
Definition sample_strategy_reinvest : TonJettonTonStrategy.ReinvestOpts.t :=
  TonJettonTonStrategy.ReinvestOpts.mk
    50000000 1000000000 500000000 1 0 0 1800000000 None.

Definition sample_vault_reinvest : Vault.ReinvestOpts.t :=
  Vault.ReinvestOpts.mk
    50000000 1000000000 500000000 1 0 300000000 100000000 50000000 0
    1800000000 None.

Definition sample_address : Address := mkAddress 0 12345.

(** The flat fields of the vault's persisted configuration. *)
Definition vaultConfigSchema : list Field :=
  [FAddress; FCoins; FCoins; FUint 1; FCoins; FCoins; FAddress].

Definition vaultConfigValues (config : Vault.VaultConfig) : list FieldValue :=
  [VAddr (Vault.distributionPoolAddress config);
   VNum (Vault.sharesTotalSupply config);
   VNum (Vault.depositedLp config);
   VNum (Vault.isLocked config);
   VNum (Vault.managementFeeRate config);
   VNum (Vault.managementFee config);
   VAddr (Vault.depositLpWalletAddress config)].

(** A configuration whose fields are in their domains and whose flat fields
    fit one cell. *)
Definition vaultConfig_ok (config : Vault.VaultConfig) : Prop :=
  fields_in_domain vaultConfigSchema (vaultConfigValues config)
  /\ address_ok (Vault.adminAddress config)
  /\ address_ok (Vault.managerAddress config)
  /\ address_ok (Vault.strategyAddress config)
  /\ len (encFields vaultConfigSchema (vaultConfigValues config)) <= MAX_BITS.

Definition sample_cell : Cell := mkCell [] [].

(** A configuration whose fee rate, 70000, does not fit 16 bits. *)
Definition sample_vault_config : Vault.VaultConfig :=
  Vault.mkConfig sample_address 1000000 2000000 0 70000 5 sample_address
    sample_address sample_address sample_address sample_cell sample_cell.

Definition sample_set_rate : Vault.SetManagementFeeRateOpts.t :=
  Vault.SetManagementFeeRateOpts.mk 50000000 10000 None.

Definition sample_set_rate_wide : Vault.SetManagementFeeRateOpts.t :=
  Vault.SetManagementFeeRateOpts.mk 50000000 70000 None.

(** A fee rate that fits, with a query id that does not. *)
Definition sample_set_rate_bad_query : Vault.SetManagementFeeRateOpts.t :=
  Vault.SetManagementFeeRateOpts.mk 50000000 100 (Some (-1)).

(* ================================================================== *)
(** ** The extra-reward orchestrator *)

Module Distribution.

(** A decimal literal [mantissa / 10^scale], such as [0.1] or [0.05]. *)
Record Decimal : Type := mkDecimal {
  mantissa : Z;
  scale : nat
}.

(** [toNano] of [@ton/core] on a decimal literal: nine decimals, as an
    integer. *)
Definition toNano (d : Decimal) : Z :=
  mantissa d * 10 ^ 9 / 10 ^ Z.of_nat (scale d).

Definition Hash : Type := string.

(** [Dictionary<Address, bigint>] in key order; [size] is its [.size]. *)
Definition RewardsDictionary : Type := list (Address * Z).
Definition size (d : RewardsDictionary) : Z := len d.

(** What [getPoolExtraData] resolves to, as far as the orchestrator reads
    it. *)
Record PoolExtraData : Type := mkPoolExtraData {
  tokenWalletAddress : Address
}.

(** One value of [addresses.vaults]. *)
Record VaultData : Type := mkVaultData {
  vault : string;
  extraDistributionPool : string
}.

(** The calls the orchestrator makes on its collaborators, in the order it
    makes them.  A call is recorded when it is made, whether it then resolves
    or rejects.  The governor sender is the single one resolved at the start
    of a run, so the events leave it implicit. *)
Inductive Event : Type :=
| EvGovernorWallet
| EvGetPoolExtraData (pool : Address)
| EvWaitEnter (key : string)
| EvPrepareExtraRewards (vaultAddr : Address) (rewardPerPeriod : Z)
                        (pool : Address)
| EvDistributeRewards (rewards : RewardsDictionary) (pool : Address)
| EvGovernorSend (to : Address) (amount : Z)
| EvWaitConfirm (key : string)
| EvConsoleLog (msg : string).

(** The collaborators, which are not part of the two source files: each call
    reads and changes the outside world and either resolves ([Some]) or
    rejects ([None]). *)
Record Env (World : Type) : Type := mkEnv {
  governorWallet : World -> option Address * World;
  parseAddress : string -> option Address;
  addressToString : Address -> string;
  getPoolExtraData : Address -> World -> option PoolExtraData * World;
  prepareExtraRewards :
    Address -> Z -> Address -> World -> option RewardsDictionary * World;
  distributeRewards :
    RewardsDictionary -> Address -> World -> option unit * World;
  governorSend : Address -> Z -> World -> option unit * World;
  confirmation : string -> World -> option Hash * World;
  TONVIEWER_URL : string
}.
Arguments governorWallet {World} e.
Arguments parseAddress {World} e.
Arguments addressToString {World} e.
Arguments getPoolExtraData {World} e.
Arguments prepareExtraRewards {World} e.
Arguments distributeRewards {World} e.
Arguments governorSend {World} e.
Arguments confirmation {World} e.
Arguments TONVIEWER_URL {World} e.

(** The outcome of running an [async] computation: the value it resolved
    to, or [None] when it rejected; the outside world it leaves; and the
    calls it made, in order. *)
Record Run (World A : Type) : Type := mkRun {
  outcome : option A;
  after : World;
  events : list Event
}.
Arguments mkRun {World A} outcome after events.
Arguments outcome {World A} r.
Arguments after {World A} r.
Arguments events {World A} r.

Definition Async (World A : Type) : Type := World -> Run World A.

Definition resolve {World A : Type} (a : A) : Async World A :=
  fun w => mkRun (Some a) w [].

(** [await m] then continue with [k]; a rejection of [m] propagates and
    nothing of [k] runs. *)
Definition await {World A B : Type} (m : Async World A)
    (k : A -> Async World B) : Async World B :=
  fun w =>
    match m w with
    | mkRun (Some a) w1 e1 =>
        match k a w1 with
        | mkRun o w2 e2 => mkRun o w2 (e1 ++ e2)
        end
    | mkRun None w1 e1 => mkRun None w1 e1
    end.

Notation "x <~ m ;; k" := (await m (fun x => k))
  (at level 61, m at next level, right associativity).
Notation "m ;;; k" := (await m (fun _ => k))
  (at level 61, right associativity).

(** A synchronous call that may throw ([Address.parse]). *)
Definition orThrow {World A : Type} (o : option A) : Async World A :=
  fun w => mkRun o w [].

(** A call on a collaborator, recorded as an event. *)
Definition call {World A : Type} (ev : Event)
    (h : World -> option A * World) : Async World A :=
  fun w => let (r, w') := h w in mkRun r w' [ev].

Definition emit {World : Type} (ev : Event) : Async World unit :=
  fun w => mkRun (Some tt) w [ev].

Section Orchestrator.

Context {World : Type} (env : Env World).

(** Modelled from the spec: [wait] of [./wait], which is not among the source
    files.  It runs the submission it is given, then blocks until a
    transaction hash is confirmed for its key, or rejects when its retry
    budget is exhausted.  The polling and its budget are the collaborator
    [confirmation], whose answer is left open: it may reject, also when the
    submission submitted nothing.  The submission is run once; a rerun of a
    rejected submission inside [wait] is not modelled. *)
Definition wait (address : string) (fn : Async World unit)
    : Async World Hash :=
  emit (EvWaitEnter address) ;;;
  fn ;;;
  call (EvWaitConfirm address) (confirmation env address).

Definition consoleLog (msg : string) : Async World unit :=
  emit (EvConsoleLog msg).

Definition distributionLog (hash : Hash) : string :=
  ("Extra rewards distribution hash: " ++ hash ++ ". Link:"
   ++ TONVIEWER_URL env ++ "/transaction/" ++ hash)%string.

Definition sendLog (sendHash : Hash) : string :=
  ("Send extra rewards hash: " ++ sendHash ++ ". Link:"
   ++ TONVIEWER_URL env ++ "/transaction/" ++ sendHash)%string.

(** The submission passed to the first [wait]. *)
Definition distributionStep (vaultData : VaultData) (rewardPerPeriod : Z)
    (distributionPool : Address) : Async World unit :=
  vaultAddr <~ orThrow (parseAddress env (vault vaultData)) ;;
  rewardsDictionary <~
    call (EvPrepareExtraRewards vaultAddr rewardPerPeriod distributionPool)
         (prepareExtraRewards env vaultAddr rewardPerPeriod distributionPool) ;;
  if size rewardsDictionary >? 0
  then call (EvDistributeRewards rewardsDictionary distributionPool)
            (distributeRewards env rewardsDictionary distributionPool)
  else resolve tt.

(** The submission passed to the second [wait]. *)
Definition fundingStep (distributionPoolData : PoolExtraData)
    (rewardPerPeriod fee : Z) : Async World unit :=
  call (EvGovernorSend (tokenWalletAddress distributionPoolData)
                       (rewardPerPeriod + fee))
       (governorSend env (tokenWalletAddress distributionPoolData)
                     (rewardPerPeriod + fee)).

(** The body of the [for] loop. *)
Definition processVault (address : string) (vaultData : VaultData)
    : Async World unit :=
  distributionPool <~
    orThrow (parseAddress env (extraDistributionPool vaultData)) ;;
  distributionPoolData <~
    call (EvGetPoolExtraData distributionPool)
         (getPoolExtraData env distributionPool) ;;
  let rewardPerPeriod := toNano (mkDecimal 1 1) in
  hash <~ wait address
            (distributionStep vaultData rewardPerPeriod distributionPool) ;;
  consoleLog (distributionLog hash) ;;;
  let fee := toNano (mkDecimal 5 2) in
  sendHash <~ wait address
                (fundingStep distributionPoolData rewardPerPeriod fee) ;;
  consoleLog (sendLog sendHash).

(** [for (const vaultData of Object.values(addresses.vaults))] *)
Fixpoint forEachVault (address : string) (vaults : list VaultData)
    : Async World unit :=
  match vaults with
  | [] => resolve tt
  | vaultData :: rest =>
      processVault address vaultData ;;; forEachVault address rest
  end.

Definition vaultExtraRewardsDistribution (vaults : list VaultData)
    : Async World unit :=
  walletAddress <~ call EvGovernorWallet (governorWallet env) ;;
  let address := addressToString env walletAddress in
  forEachVault address vaults.

(** The calls made for each vault of a run, vault by vault: the loop stops
    after the first vault whose processing rejects. *)
Fixpoint vaultSegments (address : string) (vaults : list VaultData)
    (w : World) : list (list Event) :=
  match vaults with
  | [] => []
  | vaultData :: rest =>
      let r := processVault address vaultData w in
      events r ::
      match outcome r with
      | Some _ => vaultSegments address rest (after r)
      | None => []
      end
  end.

End Orchestrator.

Definition is_distribute (ev : Event) : bool :=
  match ev with EvDistributeRewards _ _ => true | _ => false end.

Definition is_send (ev : Event) : bool :=
  match ev with EvGovernorSend _ _ => true | _ => false end.

Definition inside (key : string) (w : option string) : bool :=
  match w with
  | Some k => String.eqb k key
  | None => false
  end.

(** Scan the calls made for one vault.  [w] is the key of the [wait] in
    progress, if any; [sent] tells whether the funding transfer was already
    submitted.  The scan accepts when every distribution and every funding
    transfer is submitted inside a [wait] keyed on [key], and no distribution
    is submitted once the funding transfer was. *)
Fixpoint submissionsOrdered (key : string) (w : option string) (sent : bool)
    (evs : list Event) : bool :=
  match evs with
  | [] => true
  | EvWaitEnter k :: rest => submissionsOrdered key (Some k) sent rest
  | EvWaitConfirm _ :: rest => submissionsOrdered key None sent rest
  | EvDistributeRewards _ _ :: rest =>
      inside key w && negb sent && submissionsOrdered key w sent rest
  | EvGovernorSend _ _ :: rest =>
      inside key w && submissionsOrdered key w true rest
  | _ :: rest => submissionsOrdered key w sent rest
  end.

(** The key of the [wait] in progress after the calls [evs], starting from
    [w]. *)
Fixpoint pendingWait (w : option string) (evs : list Event) : option string :=
  match evs with
  | [] => w
  | EvWaitEnter k :: rest => pendingWait (Some k) rest
  | EvWaitConfirm _ :: rest => pendingWait None rest
  | _ :: rest => pendingWait w rest
  end.

(* ------------------------------------------------------------------ *)
(** *** A sample deployment: two vaults *)

Definition governorAddress : Address := mkAddress 0 1.
Definition poolA : Address := mkAddress 0 10.
Definition poolB : Address := mkAddress 0 20.
Definition vaultA : Address := mkAddress 0 11.
Definition vaultB : Address := mkAddress 0 21.
Definition holder : Address := mkAddress 0 99.

Definition sampleParse (s : string) : option Address :=
  if String.eqb s "pool-A" then Some poolA
  else if String.eqb s "pool-B" then Some poolB
  else if String.eqb s "vault-A" then Some vaultA
  else if String.eqb s "vault-B" then Some vaultB
  else None.

Definition sampleKey : string := "EQ-governor".
Definition dataA : VaultData := mkVaultData "vault-A" "pool-A".
Definition dataB : VaultData := mkVaultData "vault-B" "pool-B".

(** The world counts the transactions the governor has submitted.  Vault A
    has one holder, vault B none; when [poolADown] is set, reading the state
    of pool A rejects. *)
Definition sampleEnv (poolADown : bool) : Env nat :=
  mkEnv nat
    (fun w => (Some governorAddress, w))
    sampleParse
    (fun _ => sampleKey)
    (fun pool w =>
       if poolADown && (hash pool =? hash poolA) then (None, w)
       else (Some (mkPoolExtraData (mkAddress 0 (hash pool + 1000))), w))
    (fun vaultAddr rewardPerPeriod _ w =>
       if hash vaultAddr =? hash vaultA
       then (Some [(holder, rewardPerPeriod)], w)
       else (Some [], w))
    (fun _ _ w => (Some tt, S w))
    (fun _ _ w => (Some tt, S w))
    (fun _ w => (Some ("tx-" ++ String (ascii_of_nat (48 + w)) "")%string, w))
    "https://tonviewer.com".

End Distribution.

(* ================================================================== *)
(** ** Definitions for the further properties *)

(** The fewest and the most bits a field's encoding takes. *)
Definition minBits (f : Field) : Z :=
  match f with
  | FUint n => Z.of_nat n
  | FCoins => 4
  | FAddress => 267
  | FBit => 1
  end.

Definition maxBits (f : Field) : Z :=
  match f with
  | FUint n => Z.of_nat n
  | FCoins => 124
  | FAddress => 267
  | FBit => 1
  end.

Definition sumZ (l : list Z) : Z := fold_right Z.add 0 l.

(** The flat fields of the strategy's persisted configuration, and its two
    address groups. *)
Definition strategyConfigSchema : list Field :=
  [FAddress; FAddress; FAddress; FUint 1].

Definition strategyConfigValues
    (config : TonJettonTonStrategy.TonJettonTonStrategyConfig)
    : list FieldValue :=
  [VAddr (TonJettonTonStrategy.vaultAddress config);
   VAddr (TonJettonTonStrategy.jettonMasterAddress config);
   VAddr (TonJettonTonStrategy.poolAddress config);
   VNum (TonJettonTonStrategy.poolType config)].

Definition strategyWalletValues
    (config : TonJettonTonStrategy.TonJettonTonStrategyConfig)
    : list FieldValue :=
  [VAddr (TonJettonTonStrategy.depositLpWalletAddress config);
   VAddr (TonJettonTonStrategy.jettonWalletAddress config);
   VAddr (TonJettonTonStrategy.adminAddress config)].

Definition strategyVaultValues
    (config : TonJettonTonStrategy.TonJettonTonStrategyConfig)
    : list FieldValue :=
  [VAddr (TonJettonTonStrategy.jettonVaultAddress config);
   VAddr (TonJettonTonStrategy.nativeVaultAddress config)].

Definition strategyConfig_ok
    (config : TonJettonTonStrategy.TonJettonTonStrategyConfig) : Prop :=
  fields_in_domain strategyConfigSchema (strategyConfigValues config)
  /\ fields_in_domain [FAddress; FAddress; FAddress]
       (strategyWalletValues config)
  /\ fields_in_domain [FAddress; FAddress] (strategyVaultValues config).

(** The vault configuration's group of role addresses. *)
Definition vaultRoleValues (config : Vault.VaultConfig) : list FieldValue :=
  [VAddr (Vault.adminAddress config);
   VAddr (Vault.managerAddress config);
   VAddr (Vault.strategyAddress config)].

(** The flat fields, and the role addresses, of a vault configuration are in
    the domains of their encodings. *)
Definition vaultFlat_ok (config : Vault.VaultConfig) : Prop :=
  fields_in_domain vaultConfigSchema (vaultConfigValues config).

Definition vaultRoles_ok (config : Vault.VaultConfig) : Prop :=
  fields_in_domain [FAddress; FAddress; FAddress] (vaultRoleValues config).

(** The bits the four coin amounts of a vault configuration take. *)
Definition vaultCoinBits (config : Vault.VaultConfig) : Z :=
  len (encCoins (Vault.sharesTotalSupply config))
  + len (encCoins (Vault.depositedLp config))
  + len (encCoins (Vault.managementFeeRate config))
  + len (encCoins (Vault.managementFee config)).

(** The cell [vaultConfigToCell] builds when every store succeeds. *)
Definition vaultConfigCell (config : Vault.VaultConfig) : Cell :=
  mkCell (encFields vaultConfigSchema (vaultConfigValues config))
    [mkCell (encFields [FAddress; FAddress; FAddress]
               (vaultRoleValues config)) [];
     Vault.sharesWalletCode config; Vault.tempUpgrade config].

Definition sample_strategy_config
    : TonJettonTonStrategy.TonJettonTonStrategyConfig :=
  TonJettonTonStrategy.mkConfig sample_address sample_address sample_address
    1 sample_address sample_address sample_address sample_address
    sample_address sample_cell.

(** A vault configuration whose four amounts each take fifteen bytes. *)
Definition sample_vault_config_large : Vault.VaultConfig :=
  Vault.mkConfig sample_address (2 ^ 119) (2 ^ 119) 0 (2 ^ 119) (2 ^ 119)
    sample_address sample_address sample_address sample_address sample_cell
    sample_cell.

Definition sample_deposit_notification : Vault.DepositNotificationOpts.t :=
  Vault.DepositNotificationOpts.mk 250000000 sample_address 50000000 (Some 7).

Definition sample_set_is_locked : Vault.SetIsLockedOpts.t :=
  Vault.SetIsLockedOpts.mk 50000000 1 None.




(** Scan the calls made for one vault for the confirmation that separates
    its two submissions.  [confirmed] tells whether a confirmation was
    already awaited.  The scan accepts when every confirmation is awaited for
    [key], every distribution is submitted before any confirmation and every
    funding transfer after one. *)
Fixpoint confirmationSeparates (key : string) (confirmed : bool)
    (evs : list Distribution.Event) : bool :=
  match evs with
  | [] => true
  | Distribution.EvWaitConfirm k :: rest =>
      String.eqb k key && confirmationSeparates key true rest
  | Distribution.EvDistributeRewards _ _ :: rest =>
      negb confirmed && confirmationSeparates key confirmed rest
  | Distribution.EvGovernorSend _ _ :: rest =>
      confirmed && confirmationSeparates key confirmed rest
  | _ :: rest => confirmationSeparates key confirmed rest
  end.

(** The sample deployment on a ledger that confirms only what was
    submitted: the world counts the transactions submitted and the
    transactions confirmed, and a confirmation resolves only while a
    submitted transaction is unconfirmed. *)
Definition ledgerEnv : Distribution.Env (nat * nat) :=
  Distribution.mkEnv (nat * nat)
    (fun w => (Some Distribution.governorAddress, w))
    Distribution.sampleParse
    (fun _ => Distribution.sampleKey)
    (fun pool w =>
       (Some (Distribution.mkPoolExtraData (mkAddress 0 (hash pool + 1000))),
        w))
    (fun vaultAddr rewardPerPeriod _ w =>
       if hash vaultAddr =? hash Distribution.vaultA
       then (Some [(Distribution.holder, rewardPerPeriod)], w)
       else (Some [], w))
    (fun _ _ w => (Some tt, (S (fst w), snd w)))
    (fun _ _ w => (Some tt, (S (fst w), snd w)))
    (fun _ w =>
       if (snd w <? fst w)%nat
       then (Some "tx"%string, (fst w, S (snd w)))
       else (None, w))
    "https://tonviewer.com".

Definition is_wait_confirm (ev : Distribution.Event) : bool :=
  match ev with Distribution.EvWaitConfirm _ => true | _ => false end.

(** Scan a trace for overlapping waits: a [wait] may only be entered when
    none is in progress, and a confirmation may only be awaited for the key
    of the [wait] in progress. *)
Fixpoint waitsSequential (p : option string)
    (evs : list Distribution.Event) : bool :=
  match evs with
  | [] => true
  | Distribution.EvWaitEnter k :: rest =>
      match p with
      | None => waitsSequential (Some k) rest
      | Some _ => false
      end
  | Distribution.EvWaitConfirm k :: rest =>
      Distribution.inside k p && waitsSequential None rest
  | _ :: rest => waitsSequential p rest
  end.

(** Vaults whose configured addresses do not parse. *)
Definition dataBadPool : Distribution.VaultData :=
  Distribution.mkVaultData "vault-A" "not-an-address".

Definition dataBadVault : Distribution.VaultData :=
  Distribution.mkVaultData "not-an-address" "pool-A".

(** The sample deployment with a governor wallet that does not resolve. *)
Definition lockedWalletEnv : Distribution.Env nat :=
  Distribution.mkEnv nat
    (fun w => (None, w))
    (Distribution.parseAddress (Distribution.sampleEnv false))
    (Distribution.addressToString (Distribution.sampleEnv false))
    (Distribution.getPoolExtraData (Distribution.sampleEnv false))
    (Distribution.prepareExtraRewards (Distribution.sampleEnv false))
    (Distribution.distributeRewards (Distribution.sampleEnv false))
    (Distribution.governorSend (Distribution.sampleEnv false))
    (Distribution.confirmation (Distribution.sampleEnv false))
    (Distribution.TONVIEWER_URL (Distribution.sampleEnv false)).

(** A builder call with the parts a body does not record made canonical: the
    attached [value] set to 0 and an omitted [queryId] made the 0 it is
    stored as. *)
Definition normalizeCall (c : BuilderCall) : BuilderCall :=
  match c with
  | StrategyReinvest o =>
      StrategyReinvest
        (TonJettonTonStrategy.ReinvestOpts.mk 0
           (TonJettonTonStrategy.ReinvestOpts.totalReward o)
           (TonJettonTonStrategy.ReinvestOpts.amountToSwap o)
           (TonJettonTonStrategy.ReinvestOpts.limit o)
           (TonJettonTonStrategy.ReinvestOpts.tonTargetBalance o)
           (TonJettonTonStrategy.ReinvestOpts.jettonTargetBalance o)
           (TonJettonTonStrategy.ReinvestOpts.deadline o)
           (Some (TonJettonTonStrategy.ReinvestOpts.queryId o ?? 0)))
  | StrategySetJettonWalletAddress o =>
      StrategySetJettonWalletAddress
        (TonJettonTonStrategy.SetJettonWalletAddressOpts.mk 0
           (TonJettonTonStrategy.SetJettonWalletAddressOpts.walletAddress o)
           (Some (TonJettonTonStrategy.SetJettonWalletAddressOpts.queryId o
                  ?? 0)))
  | StrategySetDepositLpWalletAddress o =>
      StrategySetDepositLpWalletAddress
        (TonJettonTonStrategy.SetDepositLpWalletAddressOpts.mk 0
           (TonJettonTonStrategy.SetDepositLpWalletAddressOpts.walletAddress o)
           (Some (TonJettonTonStrategy.SetDepositLpWalletAddressOpts.queryId o
                  ?? 0)))
  | VaultDepositNotification o =>
      VaultDepositNotification
        (Vault.DepositNotificationOpts.mk
           (Vault.DepositNotificationOpts.jettonAmount o)
           (Vault.DepositNotificationOpts.fromAddress o) 0
           (Some (Vault.DepositNotificationOpts.queryId o ?? 0)))
  | VaultReinvest o =>
      VaultReinvest
        (Vault.ReinvestOpts.mk 0
           (Vault.ReinvestOpts.totalReward o)
           (Vault.ReinvestOpts.amountToSwap o)
           (Vault.ReinvestOpts.limit o)
           (Vault.ReinvestOpts.tonTargetBalance o)
           (Vault.ReinvestOpts.depositFee o)
           (Vault.ReinvestOpts.depositFwdFee o)
           (Vault.ReinvestOpts.transferFee o)
           (Vault.ReinvestOpts.jettonTargetBalance o)
           (Vault.ReinvestOpts.deadline o)
           (Some (Vault.ReinvestOpts.queryId o ?? 0)))
  | VaultSetStrategyAddress o =>
      VaultSetStrategyAddress
        (Vault.SetStrategyAddressOpts.mk 0
           (Vault.SetStrategyAddressOpts.strategyAddress o)
           (Some (Vault.SetStrategyAddressOpts.queryId o ?? 0)))
  | VaultWithdrawManagementFee o =>
      VaultWithdrawManagementFee
        (Vault.WithdrawManagementFeeOpts.mk 0
           (Vault.WithdrawManagementFeeOpts.receiver o)
           (Vault.WithdrawManagementFeeOpts.amount o)
           (Some (Vault.WithdrawManagementFeeOpts.queryId o ?? 0)))
  | VaultSetIsLocked o =>
      VaultSetIsLocked
        (Vault.SetIsLockedOpts.mk 0
           (Vault.SetIsLockedOpts.isLocked o)
           (Some (Vault.SetIsLockedOpts.queryId o ?? 0)))
  | VaultSetManagementFeeRate o =>
      VaultSetManagementFeeRate
        (Vault.SetManagementFeeRateOpts.mk 0
           (Vault.SetManagementFeeRateOpts.managementFeeRate o)
           (Some (Vault.SetManagementFeeRateOpts.queryId o ?? 0)))
  end.

(** The lock setter with an explicit query id of 0 and another value. *)
Definition sample_set_is_locked_q0 : Vault.SetIsLockedOpts.t :=
  Vault.SetIsLockedOpts.mk 70000000 1 (Some 0).

(* ================================================================== *)
(** * Properties of the cell codec *)

Lemma len_app {A : Type} (l1 l2 : list A) : len (l1 ++ l2) = len l1 + len l2.
Proof. unfold len. rewrite length_app. lia. Qed.

Lemma len_nonneg {A : Type} (l : list A) : 0 <= len l.
Proof. unfold len. lia. Qed.

Lemma len_encUint (n : nat) (v : Z) : len (encUint n v) = Z.of_nat n.
Proof.
  unfold len. f_equal.
  induction n as [|n IH]; simpl; [reflexivity | now rewrite IH].
Qed.

Lemma decUintAcc_encUint (n : nat) (v acc : Z) :
  decUintAcc acc (encUint n v) = acc * 2 ^ Z.of_nat n + v mod 2 ^ Z.of_nat n.
Proof.
  revert acc. induction n as [|n IH]; intros acc.
  - simpl. rewrite Z.mod_1_r. lia.
  - cbn [encUint decUintAcc]. rewrite IH.
    rewrite Z.testbit_spec' by lia.
    replace (Z.of_nat (S n)) with (Z.of_nat n + 1) by lia.
    rewrite Z.pow_add_r by lia. change (2 ^ 1) with 2.
    rewrite (Z.rem_mul_r v (2 ^ Z.of_nat n) 2) by lia.
    ring.
Qed.

Lemma decUint_encUint (n : nat) (v : Z) :
  0 <= v < 2 ^ Z.of_nat n -> decUint (encUint n v) = v.
Proof.
  intros Hv. unfold decUint. rewrite decUintAcc_encUint.
  rewrite Z.mod_small by lia. lia.
Qed.

Lemma length_encUint (n : nat) (v : Z) : List.length (encUint n v) = n.
Proof. induction n as [|n IH]; simpl; [reflexivity | now rewrite IH]. Qed.

(** Reading back a fixed-width field returns the value written. *)
Lemma loadUint_encUint (n : nat) (v : Z) (rest : list bool) :
  0 <= v < 2 ^ Z.of_nat n ->
  loadUint n (encUint n v ++ rest) = Some (v, rest).
Proof.
  intros Hv. unfold loadUint.
  rewrite len_app, len_encUint.
  pose proof (len_nonneg rest).
  destruct (Z.leb_spec (Z.of_nat n) (Z.of_nat n + len rest)); [|lia].
  rewrite firstn_app, skipn_app, length_encUint, Nat.sub_diag.
  rewrite <- (length_encUint n v) at 1 3.
  rewrite firstn_all, skipn_all. simpl. rewrite app_nil_r.
  now rewrite decUint_encUint.
Qed.

Lemma sizeBytes_bounds (v : Z) :
  0 < v < 2 ^ 120 ->
  1 <= sizeBytes v <= 15 /\ 0 <= v < 2 ^ (8 * sizeBytes v).
Proof.
  intros [Hpos Hlt]. unfold sizeBytes.
  pose proof (Z.log2_nonneg v) as Hnn.
  assert (Hlog : Z.log2 v < 120) by (apply Z.log2_lt_pow2; lia).
  pose proof (Z.log2_spec v Hpos) as [_ Hup].
  assert (Hq : Z.log2 v + 1 <= 8 * ((Z.log2 v + 1 + 7) / 8)).
  { pose proof (Z.div_mod (Z.log2 v + 1 + 7) 8 ltac:(lia)).
    pose proof (Z.mod_pos_bound (Z.log2 v + 1 + 7) 8 ltac:(lia)). lia. }
  repeat split.
  - apply Z.div_le_lower_bound; lia.
  - apply Z.lt_succ_r. apply Z.div_lt_upper_bound; lia.
  - lia.
  - eapply Z.lt_le_trans; [exact Hup|].
    apply Z.pow_le_mono_r; lia.
Qed.

Lemma len_encCoins (v : Z) : coins_ok v -> 4 <= len (encCoins v) <= 124.
Proof.
  intros [H0 H1]. unfold encCoins.
  destruct (Z.eqb_spec v 0) as [->|Hne].
  - rewrite len_encUint. lia.
  - rewrite len_app, !len_encUint.
    pose proof (sizeBytes_bounds v ltac:(lia)) as [Hs _]. lia.
Qed.

Lemma len_encAddress (a : Address) : len (encAddress a) = 267.
Proof. unfold encAddress. rewrite !len_app, !len_encUint. reflexivity. Qed.

(** Reading back a coin amount returns the amount written. *)
Lemma loadCoins_encCoins (v : Z) (rest : list bool) :
  coins_ok v -> loadCoins (encCoins v ++ rest) = Some (v, rest).
Proof.
  intros [H0 H1]. unfold loadCoins, encCoins.
  destruct (Z.eqb_spec v 0) as [->|Hne].
  - rewrite loadUint_encUint by (simpl; lia).
    change (Z.to_nat (8 * 0)) with 0%nat. unfold loadUint.
    pose proof (len_nonneg rest).
    destruct (Z.leb_spec (Z.of_nat 0) (len rest)); [reflexivity|simpl in *; lia].
  - pose proof (sizeBytes_bounds v ltac:(lia)) as [Hs Hv].
    rewrite <- app_assoc.
    rewrite loadUint_encUint by (simpl; lia).
    apply loadUint_encUint. rewrite Z2Nat.id by lia. exact Hv.
Qed.

(** *** When the store operations succeed, and what they append *)

Lemma writeBits_ok (bs : list bool) (b : Builder) :
  len (b_bits b) + len bs <= MAX_BITS ->
  writeBits bs b = OK (append bs b).
Proof.
  intros H. unfold writeBits.
  destruct (Z.leb_spec (len (b_bits b) + len bs) MAX_BITS); [reflexivity|lia].
Qed.

Lemma storeUint_ok (v : Z) (n : nat) (b : Builder) :
  uint_ok (Z.of_nat n) v ->
  len (b_bits b) + Z.of_nat n <= MAX_BITS ->
  storeUint v n b = OK (append (encUint n v) b).
Proof.
  intros [H0 H1] Hlen. unfold storeUint.
  destruct (Z.leb_spec 0 v); [|lia].
  destruct (Z.ltb_spec v (2 ^ Z.of_nat n)); [|lia].
  simpl. apply writeBits_ok. now rewrite len_encUint.
Qed.

(** Outside the width the store throws, whatever the builder holds. *)
Lemma storeUint_range (v : Z) (n : nat) (b : Builder) :
  ~ uint_ok (Z.of_nat n) v -> storeUint v n b = Err RangeError.
Proof.
  intros H. unfold storeUint, uint_ok in *.
  destruct (Z.leb_spec 0 v); destruct (Z.ltb_spec v (2 ^ Z.of_nat n));
    simpl; try reflexivity; lia.
Qed.

(** Side conditions on the bits a builder already holds. *)
Ltac len_simpl :=
  unfold append; cbn [b_bits b_refs];
  rewrite ?len_app, ?len_encUint, ?len_encAddress;
  unfold MAX_BITS, MAX_REFS in *.

Lemma storeInt_ok (v : Z) (b : Builder) :
  -128 <= v < 128 ->
  len (b_bits b) + 8 <= MAX_BITS ->
  storeInt v 8 b = OK (append (encUint 8 (v mod 2 ^ 8)) b).
Proof.
  intros [H0 H1] Hlen. unfold storeInt.
  assert (Hp : 2 ^ (Z.of_nat 8 - 1) = 128) by reflexivity.
  destruct (Z.leb_spec (- 2 ^ (Z.of_nat 8 - 1)) v); [|lia].
  destruct (Z.ltb_spec v (2 ^ (Z.of_nat 8 - 1))); [|lia].
  simpl andb. cbv iota. apply writeBits_ok. rewrite len_encUint. exact Hlen.
Qed.

Lemma storeCoins_ok (v : Z) (b : Builder) :
  coins_ok v ->
  len (b_bits b) + len (encCoins v) <= MAX_BITS ->
  storeCoins v b = OK (append (encCoins v) b).
Proof.
  intros [H0 H1]. unfold storeCoins, encCoins.
  destruct (Z.ltb_spec v 0); [lia|].
  destruct (Z.eqb_spec v 0) as [->|Hne]; intros Hlen.
  - apply storeUint_ok; [unfold uint_ok; simpl; lia|].
    now rewrite len_encUint in Hlen.
  - pose proof (sizeBytes_bounds v ltac:(lia)) as [Hs Hv].
    rewrite len_app, !len_encUint in Hlen.
    rewrite storeUint_ok; [|unfold uint_ok; simpl; lia|simpl; lia].
    cbn [bind].
    rewrite storeUint_ok.
    + unfold append. cbn [b_bits b_refs]. now rewrite <- app_assoc.
    + unfold uint_ok. rewrite Z2Nat.id by lia. exact Hv.
    + unfold append. cbn [b_bits]. rewrite len_app, len_encUint.
      change (Z.of_nat 4) with 4 in *. lia.
Qed.

Lemma storeAddress_ok (a : Address) (b : Builder) :
  address_ok a ->
  len (b_bits b) + 267 <= MAX_BITS ->
  storeAddress a b = OK (append (encAddress a) b).
Proof.
  intros [Hw Hh] Hlen. unfold storeAddress, encAddress.
  rewrite storeUint_ok; [|unfold uint_ok; simpl; lia|lia].
  cbn [bind].
  rewrite storeUint_ok; [|unfold uint_ok; simpl; lia|len_simpl; lia].
  cbn [bind].
  rewrite storeInt_ok; [|exact Hw|len_simpl; lia].
  cbn [bind].
  rewrite storeUint_ok; [|unfold uint_ok; exact Hh|len_simpl; lia].
  unfold append. cbn [b_bits b_refs]. now rewrite <- !app_assoc.
Qed.

Lemma storeRef_ok (c : Cell) (b : Builder) :
  len (b_refs b) < MAX_REFS ->
  storeRef c b = OK (mkBuilder (b_bits b) (b_refs b ++ [c])).
Proof.
  intros H. unfold storeRef.
  destruct (Z.ltb_spec (len (b_refs b)) MAX_REFS); [reflexivity|lia].
Qed.

(** *** Reading fields back *)

Lemma loadAddress_encAddress (a : Address) (rest : list bool) :
  address_ok a -> loadAddress (encAddress a ++ rest) = Some (a, rest).
Proof.
  intros [Hw Hh]. destruct a as [w h]. cbn [workChain hash] in *.
  unfold loadAddress, encAddress. cbn [workChain hash].
  rewrite <- !app_assoc.
  rewrite loadUint_encUint by (simpl; lia).
  rewrite loadUint_encUint by (simpl; lia).
  pose proof (Z.mod_pos_bound w (2 ^ 8) ltac:(lia)) as Hm.
  rewrite loadUint_encUint by exact Hm.
  rewrite loadUint_encUint by exact Hh.
  do 3 f_equal.
  change (2 ^ 8) with 256 in *.
  destruct (Z.ltb_spec (w mod 256) 128) as [Hlt|Hge].
  - destruct (Z_lt_le_dec w 0) as [Hn|Hp].
    + rewrite <- (Z.mod_add w 1 256) in Hlt by lia.
      rewrite Z.mod_small in Hlt by lia. lia.
    + apply Z.mod_small. lia.
  - destruct (Z_lt_le_dec w 0) as [Hn|Hp].
    + rewrite <- (Z.mod_add w 1 256) by lia.
      rewrite Z.mod_small by lia. lia.
    + rewrite Z.mod_small in Hge by lia. lia.
Qed.

Lemma readField_encField (f : Field) (v : FieldValue) (rest : list bool) :
  field_ok f v -> readField f (encField f v ++ rest) = Some (v, rest).
Proof.
  destruct f, v; cbn [field_ok encField readField]; intros H;
    try contradiction.
  - now rewrite loadUint_encUint.
  - now rewrite loadCoins_encCoins.
  - now rewrite loadAddress_encAddress.
  - now rewrite loadUint_encUint.
Qed.

(** A cell written field by field reads back as the values written. *)
Lemma readFields_encFields (fs : list Field) (vs : list FieldValue) :
  fields_in_domain fs vs -> readFields fs (encFields fs vs) = Some vs.
Proof.
  revert vs. induction fs as [|f fs IH]; intros [|v vs] H;
    cbn [fields_in_domain] in H; try contradiction.
  - reflexivity.
  - destruct H as [Hf Hrest].
    cbn [readFields encFields].
    rewrite readField_encField by exact Hf.
    now rewrite IH.
Qed.

Lemma nullish_ok (q : option Z) : queryId_ok q -> uint_ok 64 (q ?? 0).
Proof.
  destruct q; cbn [queryId_ok nullish]; intros H;
    [exact H | unfold uint_ok; lia].
Qed.

(** *** Every builder succeeds on a valid options record *)

Ltac coin_bounds :=
  repeat match goal with
  | H : coins_ok ?v |- _ =>
      pose proof (len_encCoins v H);
      change (coins_ok v) with (id (coins_ok v)) in H
  end;
  unfold id in *.

Ltac const_uint :=
  unfold uint_ok; split; [vm_compute; congruence | vm_compute; reflexivity].

Ltac len_side :=
  unfold append; cbn [b_bits b_refs beginCell];
  rewrite ?len_app, ?len_encUint, ?len_encAddress;
  unfold MAX_BITS, MAX_REFS, len in *; cbn [List.length] in *; lia.

Ltac field_side :=
  first [ assumption
        | apply nullish_ok; assumption
        | const_uint
        | len_side ].

Ltac store_ok :=
  unfold storeBit, storeRefOf, endCell; cbn [bind];
  first [ rewrite storeUint_ok by field_side
        | rewrite storeCoins_ok by field_side
        | rewrite storeAddress_ok by field_side
        | rewrite storeRef_ok by field_side
        | rewrite writeBits_ok by field_side ].

Ltac layout_eq :=
  unfold storeBit, storeRefOf, endCell; cbn [bind];
  unfold layout, append;
  cbn [outerSchema outerValues childSchema childValues encFields encField
       b_bits b_refs beginCell valueOf opcodeOf queryIdOf];
  rewrite <- ?app_assoc, ?app_nil_r; cbn [app];
  reflexivity.

Lemma build_ok (c : BuilderCall) :
  valid_call c ->
  build c = OK (mkInternal (valueOf c) PAY_GAS_SEPARATELY (layout c)).
Proof.
  unfold valid_call.
  destruct c as [o|o|o|o|o|o|o|o|o]; destruct o;
    cbn [build queryIdOf fields_ok]; intros [Hq Hf];
    repeat match goal with H : _ /\ _ |- _ => destruct H end;
    coin_bounds;
    [ unfold TonJettonTonStrategy.sendReinvest
    | unfold TonJettonTonStrategy.sendSetJettonWalletAddress
    | unfold TonJettonTonStrategy.sendSetDepositLpWalletAddress
    | unfold Vault.sendDepositNotification, Vault.prepareDepositPayload
    | unfold Vault.sendReinvest
    | unfold Vault.sendSetStrategyAddress
    | unfold Vault.sendWithdrawManagementFee
    | unfold Vault.sendSetIsLocked
    | unfold Vault.sendSetManagementFeeRate ];
    cbn [TonJettonTonStrategy.ReinvestOpts.totalReward
         TonJettonTonStrategy.ReinvestOpts.amountToSwap
         TonJettonTonStrategy.ReinvestOpts.limit
         TonJettonTonStrategy.ReinvestOpts.deadline
         TonJettonTonStrategy.ReinvestOpts.tonTargetBalance
         TonJettonTonStrategy.ReinvestOpts.jettonTargetBalance
         TonJettonTonStrategy.ReinvestOpts.queryId
         TonJettonTonStrategy.ReinvestOpts.value
         TonJettonTonStrategy.SetJettonWalletAddressOpts.walletAddress
         TonJettonTonStrategy.SetJettonWalletAddressOpts.queryId
         TonJettonTonStrategy.SetJettonWalletAddressOpts.value
         TonJettonTonStrategy.SetDepositLpWalletAddressOpts.walletAddress
         TonJettonTonStrategy.SetDepositLpWalletAddressOpts.queryId
         TonJettonTonStrategy.SetDepositLpWalletAddressOpts.value
         Vault.DepositNotificationOpts.jettonAmount
         Vault.DepositNotificationOpts.fromAddress
         Vault.DepositNotificationOpts.queryId
         Vault.DepositNotificationOpts.value
         Vault.ReinvestOpts.totalReward Vault.ReinvestOpts.amountToSwap
         Vault.ReinvestOpts.limit Vault.ReinvestOpts.deadline
         Vault.ReinvestOpts.tonTargetBalance
         Vault.ReinvestOpts.jettonTargetBalance
         Vault.ReinvestOpts.depositFee Vault.ReinvestOpts.depositFwdFee
         Vault.ReinvestOpts.transferFee Vault.ReinvestOpts.queryId
         Vault.ReinvestOpts.value
         Vault.SetStrategyAddressOpts.strategyAddress
         Vault.SetStrategyAddressOpts.queryId
         Vault.SetStrategyAddressOpts.value
         Vault.WithdrawManagementFeeOpts.receiver
         Vault.WithdrawManagementFeeOpts.amount
         Vault.WithdrawManagementFeeOpts.queryId
         Vault.WithdrawManagementFeeOpts.value
         Vault.SetIsLockedOpts.isLocked Vault.SetIsLockedOpts.queryId
         Vault.SetIsLockedOpts.value
         Vault.SetManagementFeeRateOpts.managementFeeRate
         Vault.SetManagementFeeRateOpts.queryId
         Vault.SetManagementFeeRateOpts.value] in *;
    repeat store_ok; layout_eq.
Qed.

(** *** A builder that succeeds was given a valid options record *)

Lemma bind_OK_inv {A B : Type} (m : result A) (f : A -> result B) (y : B) :
  bind m f = OK y -> exists x, m = OK x /\ f x = OK y.
Proof. destruct m as [x|e]; cbn [bind]; [eauto | discriminate]. Qed.

Lemma storeUint_inv (v : Z) (n : nat) (b b' : Builder) :
  storeUint v n b = OK b' -> uint_ok (Z.of_nat n) v.
Proof.
  unfold storeUint, uint_ok.
  destruct (Z.leb_spec 0 v); destruct (Z.ltb_spec v (2 ^ Z.of_nat n));
    cbn [andb]; try discriminate. lia.
Qed.

Lemma storeInt_inv (v : Z) (b b' : Builder) :
  storeInt v 8 b = OK b' -> -128 <= v < 128.
Proof.
  unfold storeInt.
  assert (Hp : 2 ^ (Z.of_nat 8 - 1) = 128) by reflexivity.
  destruct (Z.leb_spec (- 2 ^ (Z.of_nat 8 - 1)) v);
    destruct (Z.ltb_spec v (2 ^ (Z.of_nat 8 - 1)));
    cbn [andb]; try discriminate. lia.
Qed.

Lemma storeCoins_inv (v : Z) (b b' : Builder) :
  storeCoins v b = OK b' -> coins_ok v.
Proof.
  unfold storeCoins, coins_ok.
  destruct (Z.ltb_spec v 0); [discriminate|].
  destruct (Z.eqb_spec v 0) as [->|Hne]; [intros _; lia|].
  intros H0. apply bind_OK_inv in H0 as (b1 & H1 & _).
  apply storeUint_inv in H1. unfold uint_ok, sizeBytes in H1.
  change (2 ^ Z.of_nat 4) with 16 in H1.
  split; [lia|].
  apply Z.log2_lt_pow2; [lia|].
  destruct (Z_lt_le_dec (Z.log2 v) 120) as [Hl|Hl]; [exact Hl|exfalso].
  assert (16 <= (Z.log2 v + 1 + 7) / 8)
    by (apply Z.div_le_lower_bound; lia).
  lia.
Qed.

Lemma storeAddress_inv (a : Address) (b b' : Builder) :
  storeAddress a b = OK b' -> address_ok a.
Proof.
  unfold storeAddress, address_ok. intros H0.
  apply bind_OK_inv in H0 as (b1 & _ & H0).
  apply bind_OK_inv in H0 as (b2 & _ & H0).
  apply bind_OK_inv in H0 as (b3 & Hw & Hh).
  apply storeInt_inv in Hw. apply storeUint_inv in Hh.
  split; [exact Hw | exact Hh].
Qed.

Lemma nullish_inv (q : option Z) : uint_ok 64 (q ?? 0) -> queryId_ok q.
Proof. destruct q; cbn [queryId_ok nullish]; [trivial | constructor]. Qed.

Ltac invert_chain :=
  repeat match goal with
  | H : bind _ _ = OK _ |- _ =>
      apply bind_OK_inv in H; destruct H as (? & ? & H); cbv beta in H
  | H : storeRefOf _ _ = OK _ |- _ => unfold storeRefOf in H
  | H : storeUint (_ ?? 0) 64 _ = OK _ |- _ =>
      apply storeUint_inv, nullish_inv in H
  | H : storeUint _ _ _ = OK _ |- _ => apply storeUint_inv in H
  | H : storeCoins _ _ = OK _ |- _ => apply storeCoins_inv in H
  | H : storeAddress _ _ = OK _ |- _ => apply storeAddress_inv in H
  end.

Lemma build_inv (c : BuilderCall) (msg : InternalMessage) :
  build c = OK msg -> valid_call c.
Proof.
  unfold valid_call.
  destruct c as [o|o|o|o|o|o|o|o|o];
    cbn [build queryIdOf fields_ok];
    [ unfold TonJettonTonStrategy.sendReinvest
    | unfold TonJettonTonStrategy.sendSetJettonWalletAddress
    | unfold TonJettonTonStrategy.sendSetDepositLpWalletAddress
    | unfold Vault.sendDepositNotification, Vault.prepareDepositPayload
    | unfold Vault.sendReinvest
    | unfold Vault.sendSetStrategyAddress
    | unfold Vault.sendWithdrawManagementFee
    | unfold Vault.sendSetIsLocked
    | unfold Vault.sendSetManagementFeeRate ];
    intros H; invert_chain;
    repeat match goal with |- _ /\ _ => split end; assumption.
Qed.

(** A builder produces a message exactly on the valid options records, and
    the message is the one laid out by [layout]. *)
Lemma build_spec (c : BuilderCall) (msg : InternalMessage) :
  build c = OK msg <->
  valid_call c /\ msg = mkInternal (valueOf c) PAY_GAS_SEPARATELY (layout c).
Proof.
  split.
  - intros H. pose proof (build_inv c msg H) as Hv. split; [exact Hv|].
    rewrite (build_ok c Hv) in H. now inversion H.
  - intros [Hv ->]. now apply build_ok.
Qed.

(** *** What the layouts hold *)

Lemma opcode_uint32 (c : BuilderCall) : uint_ok 32 (opcodeOf c).
Proof. destruct c; cbn [opcodeOf]; const_uint. Qed.

Lemma documented_opcodeOf (c : BuilderCall) :
  lookup (operationOf c) documented_opcodes = Some (opcodeOf c).
Proof. destruct c; reflexivity. Qed.

Lemma outer_in_domain (c : BuilderCall) :
  valid_call c -> fields_in_domain (outerSchema c) (outerValues c).
Proof.
  intros [Hq Hf]. pose proof (opcode_uint32 c) as Hop.
  apply nullish_ok in Hq.
  destruct c; cbn [fields_ok] in Hf;
    repeat match goal with H : _ /\ _ |- _ => destruct H end;
    cbn [outerSchema outerValues fields_in_domain field_ok];
    repeat match goal with |- _ /\ _ => split end;
    first [assumption | exact I | const_uint].
Qed.

Lemma child_in_domain (c : BuilderCall) (fs : list Field) :
  valid_call c -> childSchema c = Some fs ->
  fields_in_domain fs (childValues c).
Proof.
  intros [Hq Hf] Hfs. pose proof (opcode_uint32 c) as Hop.
  apply nullish_ok in Hq.
  destruct c; cbn [childSchema] in Hfs; inversion Hfs; subst fs;
    cbn [fields_ok] in Hf;
    repeat match goal with H : _ /\ _ |- _ => destruct H end;
    cbn [childValues fields_in_domain field_ok];
    repeat match goal with |- _ /\ _ => split end;
    first [assumption | exact I | const_uint].
Qed.

(** The cell that carries the header starts with the opcode and the query
    id. *)
Lemma header_layout (c : BuilderCall) :
  exists h rest,
    header_cell c (layout c) = Some h /\
    c_bits h = encUint 32 (opcodeOf c) ++ encUint 64 (queryIdOf c ?? 0) ++ rest.
Proof.
  destruct c; unfold layout;
    cbn [header_cell outerSchema outerValues childSchema childValues
         encFields encField c_refs c_bits nth_error];
    eexists; eexists; (split; [reflexivity|]); cbn [c_bits]; reflexivity.
Qed.

Lemma decUintAcc_app (acc : Z) (l1 l2 : list bool) :
  decUintAcc acc (l1 ++ l2) = decUintAcc (decUintAcc acc l1) l2.
Proof.
  revert acc. induction l1 as [|x l1 IH]; intros acc; cbn [app decUintAcc];
    [reflexivity | apply IH].
Qed.

Lemma decUintAcc_lower (acc : Z) (bs : list bool) :
  0 <= acc -> acc * 2 ^ len bs <= decUintAcc acc bs.
Proof.
  revert acc. induction bs as [|x bs IH]; intros acc Hacc.
  - cbn. lia.
  - cbn [decUintAcc].
    assert (Hb : 0 <= Z.b2z x <= 1) by (destruct x; cbn; lia).
    specialize (IH (2 * acc + Z.b2z x) ltac:(lia)).
    replace (len (x :: bs)) with (len bs + 1)
      by (unfold len; cbn [List.length]; lia).
    pose proof (len_nonneg bs).
    rewrite Z.pow_add_r by lia. change (2 ^ 1) with 2.
    assert (0 < 2 ^ len bs) by (apply Z.pow_pos_nonneg; lia).
    nia.
Qed.

(** A coin amount never reads as the reinvest opcode: its first four bits
    count the bytes that follow, and the opcode's first four bits are zero. *)
Lemma coins_never_reinvest_opcode (t : Z) (r : list bool) :
  coins_ok t -> loadUint 32 (encCoins t) <> Some (Opcodes.reinvest, r).
Proof.
  intros [H0 H1]. unfold loadUint, encCoins.
  destruct (Z.eqb_spec t 0) as [->|Hne].
  - rewrite len_encUint. cbn. discriminate.
  - pose proof (sizeBytes_bounds t ltac:(lia)) as [Hs _].
    set (A := encUint 4 (sizeBytes t)).
    set (B := encUint (Z.to_nat (8 * sizeBytes t)) t).
    destruct (Z.leb_spec (Z.of_nat 32) (len (A ++ B))) as [Hlen|_];
      [|discriminate].
    intros Heq.
    assert (Hdec : decUint (firstn 32 (A ++ B)) = Opcodes.reinvest)
      by congruence.
    clear Heq.
    assert (HlA : List.length A = 4%nat) by apply length_encUint.
    rewrite firstn_app, HlA in Hdec.
    rewrite (firstn_all2 A) in Hdec by (rewrite HlA; lia).
    unfold decUint in Hdec. rewrite decUintAcc_app in Hdec.
    fold (decUint A) in Hdec. unfold A in Hdec at 1.
    rewrite decUint_encUint in Hdec by (cbn; lia).
    pose proof (decUintAcc_lower (sizeBytes t) (firstn (32 - 4) B)
                  ltac:(lia)) as Hlow.
    rewrite Hdec in Hlow.
    assert (Hl28 : len (firstn (32 - 4) B) = 28).
    { unfold len. rewrite length_firstn.
      rewrite len_app in Hlen. unfold len in Hlen. rewrite HlA in Hlen.
      lia. }
    rewrite Hl28 in Hlow.
    change (2 ^ 28) with 268435456 in Hlow.
    change Opcodes.reinvest with 135451875 in Hlow. lia.
Qed.

(** A valid call yields the laid-out message, whose flat fields and child
    cell read back as the values stored. *)
Lemma build_reads (c : BuilderCall) :
  valid_call c ->
  exists msg,
    build c = OK msg /\
    readFields (outerSchema c) (c_bits (body msg)) = Some (outerValues c) /\
    match childSchema c with
    | Some fs =>
        exists child,
          c_refs (body msg) = [child] /\ c_refs child = [] /\
          readFields fs (c_bits child) = Some (childValues c)
    | None => c_refs (body msg) = []
    end.
Proof.
  intros Hv. eexists. split; [apply build_ok; exact Hv|].
  cbn [body]. unfold layout. cbn [c_bits c_refs].
  split; [apply readFields_encFields, outer_in_domain; exact Hv|].
  destruct (childSchema c) as [fs|] eqn:Hfs; [|reflexivity].
  eexists. split; [reflexivity|]. cbn [c_bits c_refs].
  split; [reflexivity|].
  apply readFields_encFields. now apply child_in_domain.
Qed.

Ltac sample_valid :=
  unfold valid_call;
  cbn [queryIdOf fields_ok queryId_ok nullish];
  repeat match goal with |- _ /\ _ => split end;
  first [ exact I
        | unfold coins_ok, uint_ok;
          split; [vm_compute; congruence | vm_compute; reflexivity]
        | unfold address_ok;
          split; split; first [vm_compute; congruence | vm_compute; reflexivity]
        ].

(* ================================================================== *)
(** * The reinvest bodies (C1) *)

(** C1, as stated, fails: in neither reinvest body is the outer cell made of
    the opcode (and query id) alone.  The vault's outer cell also holds
    [totalReward]; the strategy's outer cell holds [totalReward] and no
    opcode at all. *)
Lemma reinvest_outer_holds_totalReward :
  (exists msg,
     Vault.sendReinvest sample_vault_reinvest = OK msg /\
     ~ outer_is_header_only (VaultReinvest sample_vault_reinvest) (body msg))
  /\
  (exists msg,
     TonJettonTonStrategy.sendReinvest sample_strategy_reinvest = OK msg /\
     ~ outer_is_header_only (StrategyReinvest sample_strategy_reinvest)
         (body msg)).
Proof.
  split; eexists; (split; [vm_compute; reflexivity|]);
    intros [H|H]; vm_compute in H; discriminate H.
Qed.

(** C1 (amended).  Each reinvest body has exactly one child cell, which has
    no children of its own.  The strategy's outer cell holds only
    [totalReward]; its child holds the opcode, the query id, the swap amount,
    the limit, the deadline and the two target balances.  The vault's outer
    cell holds the opcode, the query id and [totalReward]; its child holds the
    swap amount, the limit, the deadline, the two target balances and the
    three fee components. *)
Theorem reinvest_bodies_nest_one_child (c : BuilderCall) :
  valid_call c ->
  match c with
  | StrategyReinvest o =>
      exists msg child,
        TonJettonTonStrategy.sendReinvest o = OK msg /\
        c_refs (body msg) = [child] /\ c_refs child = [] /\
        readFields [FCoins] (c_bits (body msg))
        = Some [VNum (TonJettonTonStrategy.ReinvestOpts.totalReward o)] /\
        readFields
          [FUint 32; FUint 64; FCoins; FCoins; FUint 32; FCoins; FCoins]
          (c_bits child)
        = Some
            [VNum Opcodes.reinvest;
             VNum (TonJettonTonStrategy.ReinvestOpts.queryId o ?? 0);
             VNum (TonJettonTonStrategy.ReinvestOpts.amountToSwap o);
             VNum (TonJettonTonStrategy.ReinvestOpts.limit o);
             VNum (TonJettonTonStrategy.ReinvestOpts.deadline o);
             VNum (TonJettonTonStrategy.ReinvestOpts.tonTargetBalance o);
             VNum (TonJettonTonStrategy.ReinvestOpts.jettonTargetBalance o)]
  | VaultReinvest o =>
      exists msg child,
        Vault.sendReinvest o = OK msg /\
        c_refs (body msg) = [child] /\ c_refs child = [] /\
        readFields [FUint 32; FUint 64; FCoins] (c_bits (body msg))
        = Some [VNum Vault.OPS.reinvest;
                VNum (Vault.ReinvestOpts.queryId o ?? 0);
                VNum (Vault.ReinvestOpts.totalReward o)] /\
        readFields
          [FCoins; FCoins; FUint 32; FCoins; FCoins; FCoins; FCoins; FCoins]
          (c_bits child)
        = Some
            [VNum (Vault.ReinvestOpts.amountToSwap o);
             VNum (Vault.ReinvestOpts.limit o);
             VNum (Vault.ReinvestOpts.deadline o);
             VNum (Vault.ReinvestOpts.tonTargetBalance o);
             VNum (Vault.ReinvestOpts.jettonTargetBalance o);
             VNum (Vault.ReinvestOpts.depositFee o);
             VNum (Vault.ReinvestOpts.depositFwdFee o);
             VNum (Vault.ReinvestOpts.transferFee o)]
  | _ => True
  end.
Proof.
  intros Hv.
  destruct c; try exact I;
    destruct (build_reads _ Hv) as (msg & Hb & Ho & child & Hr & Hn & Hc);
    exists msg, child; repeat split; assumption.
Qed.

(** The two sample reinvest calls are valid and are laid out as stated. *)
Lemma reinvest_bodies_nest_one_child_witness :
  (valid_call (StrategyReinvest sample_strategy_reinvest) /\
   exists msg child,
     TonJettonTonStrategy.sendReinvest sample_strategy_reinvest = OK msg /\
     c_refs (body msg) = [child] /\ c_refs child = [] /\
     readFields [FCoins] (c_bits (body msg)) = Some [VNum 1000000000] /\
     readFields
       [FUint 32; FUint 64; FCoins; FCoins; FUint 32; FCoins; FCoins]
       (c_bits child)
     = Some [VNum 135451875; VNum 0; VNum 500000000; VNum 1;
             VNum 1800000000; VNum 0; VNum 0])
  /\
  (valid_call (VaultReinvest sample_vault_reinvest) /\
   exists msg child,
     Vault.sendReinvest sample_vault_reinvest = OK msg /\
     c_refs (body msg) = [child] /\ c_refs child = [] /\
     readFields [FUint 32; FUint 64; FCoins] (c_bits (body msg))
     = Some [VNum 135451875; VNum 0; VNum 1000000000] /\
     readFields
       [FCoins; FCoins; FUint 32; FCoins; FCoins; FCoins; FCoins; FCoins]
       (c_bits child)
     = Some [VNum 500000000; VNum 1; VNum 1800000000; VNum 0; VNum 0;
             VNum 300000000; VNum 100000000; VNum 50000000]).
Proof.
  split.
  - assert (Hv : valid_call (StrategyReinvest sample_strategy_reinvest))
      by sample_valid.
    split; [exact Hv|].
    exact (reinvest_bodies_nest_one_child
             (StrategyReinvest sample_strategy_reinvest) Hv).
  - assert (Hv : valid_call (VaultReinvest sample_vault_reinvest))
      by sample_valid.
    split; [exact Hv|].
    exact (reinvest_bodies_nest_one_child
             (VaultReinvest sample_vault_reinvest) Hv).
Defined.

(* ================================================================== *)
(** * Opcode position (C2) *)

(** C2, as stated, fails for the strategy's [sendReinvest]: the first 32 bits
    of its body are the start of the coin encoding of [totalReward], not the
    reinvest opcode. *)
Lemma strategy_reinvest_body_starts_with_coins :
  valid_call (StrategyReinvest sample_strategy_reinvest) /\
  exists msg rest,
    TonJettonTonStrategy.sendReinvest sample_strategy_reinvest = OK msg /\
    loadUint 32 (c_bits (body msg)) = Some (1136241824, rest) /\
    1136241824 <> Opcodes.reinvest.
Proof.
  split; [sample_valid|].
  eexists. eexists.
  split; [vm_compute; reflexivity|].
  split; [vm_compute; reflexivity|].
  vm_compute. discriminate.
Qed.

(** C2 (amended).  On every valid options record each builder produces a
    message, and the documented opcode of its operation is the first 32 bits
    of the header cell: the body itself for every builder but the strategy's
    [sendReinvest], whose opcode leads the body's single child cell while the
    body's own first 32 bits never read as the opcode. *)
Theorem opcode_leads_header_cell (c : BuilderCall) :
  valid_call c ->
  exists msg h rest,
    build c = OK msg /\
    header_cell c (body msg) = Some h /\
    loadUint 32 (c_bits h) = Some (opcodeOf c, rest) /\
    lookup (operationOf c) documented_opcodes = Some (opcodeOf c) /\
    match c with
    | StrategyReinvest _ =>
        c_refs (body msg) = [h] /\
        forall r, loadUint 32 (c_bits (body msg)) <> Some (opcodeOf c, r)
    | _ => h = body msg
    end.
Proof.
  intros Hv.
  destruct (header_layout c) as (h & rest & Hh & Hbits).
  exists (mkInternal (valueOf c) PAY_GAS_SEPARATELY (layout c)), h.
  eexists.
  split; [apply build_ok; exact Hv|]. cbn [body].
  split; [exact Hh|].
  split; [rewrite Hbits; apply loadUint_encUint, opcode_uint32|].
  split; [apply documented_opcodeOf|].
  destruct c; cbn [header_cell] in Hh;
    try (injection Hh as Hh; symmetry; exact Hh).
  unfold layout in *.
  cbn [childSchema c_refs nth_error outerSchema outerValues encFields
       encField c_bits] in *.
  injection Hh as Hh. subst h.
  split; [reflexivity|].
  intros r. rewrite app_nil_r.
  apply coins_never_reinvest_opcode.
  destruct Hv as [_ Hf]. cbn [fields_ok] in Hf. apply Hf.
Qed.

(** The vault's sample reinvest call: the opcode leads the body. *)
Lemma opcode_leads_header_cell_witness :
  valid_call (VaultReinvest sample_vault_reinvest) /\
  exists msg h rest,
    build (VaultReinvest sample_vault_reinvest) = OK msg /\
    header_cell (VaultReinvest sample_vault_reinvest) (body msg) = Some h /\
    loadUint 32 (c_bits h) = Some (135451875, rest) /\
    lookup "reinvest" documented_opcodes = Some 135451875 /\
    h = body msg.
Proof.
  assert (Hv : valid_call (VaultReinvest sample_vault_reinvest))
    by sample_valid.
  split; [exact Hv|].
  exact (opcode_leads_header_cell (VaultReinvest sample_vault_reinvest) Hv).
Defined.

(* ================================================================== *)
(** * Default query id (C5) *)

(** C5.  When [queryId] is omitted, every builder that produces a message
    writes 0 into the 64-bit query-id field, the field that follows the
    opcode in the header cell; and a message is produced whenever the other
    fields are in their domains. *)
Theorem omitted_queryId_reads_zero (c : BuilderCall) :
  queryIdOf c = None ->
  (fields_ok c -> exists msg, build c = OK msg) /\
  (forall msg,
     build c = OK msg ->
     exists h r1 r2,
       header_cell c (body msg) = Some h /\
       loadUint 32 (c_bits h) = Some (opcodeOf c, r1) /\
       loadUint 64 r1 = Some (0, r2)).
Proof.
  intros Hq. split.
  - intros Hf. eexists. apply build_ok. split; [|exact Hf].
    rewrite Hq. exact I.
  - intros msg Hb. apply build_spec in Hb as [_ ->]. cbn [body].
    destruct (header_layout c) as (h & rest & Hh & Hbits).
    exists h. eexists. eexists.
    split; [exact Hh|]. rewrite Hbits, Hq. cbn [nullish].
    split; [apply loadUint_encUint, opcode_uint32|].
    apply loadUint_encUint. unfold uint_ok. cbn. lia.
Qed.

(** The strategy's sample reinvest call omits the query id. *)
Lemma omitted_queryId_reads_zero_witness :
  queryIdOf (StrategyReinvest sample_strategy_reinvest) = None /\
  fields_ok (StrategyReinvest sample_strategy_reinvest) /\
  exists msg h r1 r2,
    build (StrategyReinvest sample_strategy_reinvest) = OK msg /\
    header_cell (StrategyReinvest sample_strategy_reinvest) (body msg)
    = Some h /\
    loadUint 32 (c_bits h) = Some (135451875, r1) /\
    loadUint 64 r1 = Some (0, r2).
Proof.
  assert (Hv : valid_call (StrategyReinvest sample_strategy_reinvest))
    by sample_valid.
  destruct Hv as [_ Hf].
  split; [reflexivity|]. split; [exact Hf|].
  destruct (omitted_queryId_reads_zero
              (StrategyReinvest sample_strategy_reinvest) eq_refl)
    as [Hex Hread].
  destruct (Hex Hf) as [msg Hb].
  destruct (Hread msg Hb) as (h & r1 & r2 & H1 & H2 & H3).
  exists msg, h, r1, r2. repeat split; assumption.
Defined.

(* ================================================================== *)
(** * The 16-bit management fee rate (C10) *)

Lemma uint_ok_dec (n v : Z) : {uint_ok n v} + {~ uint_ok n v}.
Proof.
  unfold uint_ok.
  destruct (Z_le_dec 0 v); destruct (Z_lt_dec v (2 ^ n));
    first [left; lia | right; lia].
Qed.

Lemma vaultConfigToCell_ok (config : Vault.VaultConfig) :
  vaultConfig_ok config ->
  exists cell,
    Vault.vaultConfigToCell config = OK cell /\
    readFields vaultConfigSchema (c_bits cell)
    = Some (vaultConfigValues config) /\
    List.length (c_refs cell) = 3%nat.
Proof.
  intros (Hd & Ha & Hm & Hs & Hlen).
  exists (mkCell (encFields vaultConfigSchema (vaultConfigValues config))
            [mkCell (encAddress (Vault.adminAddress config)
                     ++ encAddress (Vault.managerAddress config)
                     ++ encAddress (Vault.strategyAddress config)) [];
             Vault.sharesWalletCode config; Vault.tempUpgrade config]).
  split; [|split; [apply readFields_encFields; exact Hd | reflexivity]].
  destruct config. unfold vaultConfigSchema, vaultConfigValues in *.
  cbn [Vault.distributionPoolAddress Vault.sharesTotalSupply
       Vault.depositedLp Vault.isLocked Vault.managementFeeRate
       Vault.managementFee Vault.depositLpWalletAddress Vault.adminAddress
       Vault.managerAddress Vault.strategyAddress Vault.sharesWalletCode
       Vault.tempUpgrade fields_in_domain field_ok encFields encField] in *.
  repeat match goal with H : _ /\ _ |- _ => destruct H end.
  rewrite ?len_app, ?len_encUint, ?len_encAddress in Hlen.
  coin_bounds.
  unfold Vault.vaultConfigToCell.
  cbn [Vault.distributionPoolAddress Vault.sharesTotalSupply
       Vault.depositedLp Vault.isLocked Vault.managementFeeRate
       Vault.managementFee Vault.depositLpWalletAddress Vault.adminAddress
       Vault.managerAddress Vault.strategyAddress Vault.sharesWalletCode
       Vault.tempUpgrade].
  repeat store_ok.
  unfold endCell, append; cbn [bind b_bits b_refs beginCell].
  rewrite <- ?app_assoc, ?app_nil_r; cbn [app]. reflexivity.
Qed.

(** The query id is range-checked before the rate is stored: with a query
    id outside [0, 2^64) no body is produced, whatever the rate. *)
Lemma fee_rate_in_range_query_id_out_of_range :
  uint_ok 16
    (Vault.SetManagementFeeRateOpts.managementFeeRate
       sample_set_rate_bad_query) /\
  Vault.sendSetManagementFeeRate sample_set_rate_bad_query = Err RangeError.
Proof.
  split; [unfold uint_ok; cbn; lia | vm_compute; reflexivity].
Qed.

(** C10.  [sendSetManagementFeeRate] stores the rate in exactly 16 bits: on
    an options record that is otherwise valid (query id omitted or within 64
    bits) a rate in [0, 2^16) gives a body whose three fields read back as
    the opcode, the query id and the rate; a rate outside [0, 2^16) throws a
    RangeError whatever the other fields are.  The precision constant is
    10000, and the configuration cell stores the rate as a coin amount, which
    admits every rate below 2^120. *)
Theorem management_fee_rate_is_16_bits
    (o : Vault.SetManagementFeeRateOpts.t) (config : Vault.VaultConfig) :
  (queryId_ok (Vault.SetManagementFeeRateOpts.queryId o) ->
   uint_ok 16 (Vault.SetManagementFeeRateOpts.managementFeeRate o) ->
   exists msg,
     Vault.sendSetManagementFeeRate o = OK msg /\
     c_refs (body msg) = [] /\
     readFields [FUint 32; FUint 64; FUint 16] (c_bits (body msg))
     = Some [VNum Vault.OPS.set_management_fee_rate;
             VNum (Vault.SetManagementFeeRateOpts.queryId o ?? 0);
             VNum (Vault.SetManagementFeeRateOpts.managementFeeRate o)])
  /\
  (~ uint_ok 16 (Vault.SetManagementFeeRateOpts.managementFeeRate o) ->
   Vault.sendSetManagementFeeRate o = Err RangeError)
  /\
  Vault.MANAGEMENT_FEE_PRECISION = 10000
  /\
  (vaultConfig_ok config ->
   exists cell,
     Vault.vaultConfigToCell config = OK cell /\
     readFields vaultConfigSchema (c_bits cell)
     = Some (vaultConfigValues config)).
Proof.
  split; [|split; [|split; [reflexivity|]]].
  - intros Hq Hr.
    assert (Hv : valid_call (VaultSetManagementFeeRate o))
      by (split; [exact Hq | exact Hr]).
    destruct (build_reads _ Hv) as (msg & Hb & Ho & Hn).
    exists msg. repeat split; assumption.
  - intros Hr. unfold Vault.sendSetManagementFeeRate.
    cbn [bind].
    rewrite storeUint_ok by field_side. cbn [bind].
    destruct (uint_ok_dec 64 (Vault.SetManagementFeeRateOpts.queryId o ?? 0))
      as [Hq|Hq].
    + rewrite storeUint_ok by field_side. cbn [bind].
      rewrite storeUint_range by exact Hr. reflexivity.
    + rewrite storeUint_range by exact Hq. reflexivity.
  - intros Hc. destruct (vaultConfigToCell_ok config Hc) as (cell & H1 & H2 & _).
    exists cell. split; assumption.
Qed.

(** A rate of 10000 is stored, a rate of 70000 is refused by the message and
    accepted by the configuration cell. *)
Lemma management_fee_rate_is_16_bits_witness :
  (exists msg,
     Vault.sendSetManagementFeeRate sample_set_rate = OK msg /\
     c_refs (body msg) = [] /\
     readFields [FUint 32; FUint 64; FUint 16] (c_bits (body msg))
     = Some [VNum 3261069919; VNum 0; VNum 10000])
  /\ Vault.sendSetManagementFeeRate sample_set_rate_wide = Err RangeError
  /\ (vaultConfig_ok sample_vault_config /\
      exists cell,
        Vault.vaultConfigToCell sample_vault_config = OK cell /\
        readFields vaultConfigSchema (c_bits cell)
        = Some (vaultConfigValues sample_vault_config)).
Proof.
  assert (Hc : vaultConfig_ok sample_vault_config).
  { unfold vaultConfig_ok.
    cbn [fields_in_domain vaultConfigSchema vaultConfigValues field_ok].
    repeat match goal with |- _ /\ _ => split end;
      vm_compute; repeat split;
      first [reflexivity | intros H; discriminate H]. }
  split; [|split; [|split; [exact Hc|]]].
  - apply (management_fee_rate_is_16_bits sample_set_rate sample_vault_config).
    + exact I.
    + unfold uint_ok. split; [vm_compute; congruence | vm_compute; reflexivity].
  - apply (management_fee_rate_is_16_bits sample_set_rate_wide
             sample_vault_config).
    unfold uint_ok. intros [_ H]. vm_compute in H. discriminate H.
  - apply (management_fee_rate_is_16_bits sample_set_rate sample_vault_config).
    exact Hc.
Defined.

(* ================================================================== *)
(** * Properties of the orchestrator *)

Section OrchestratorFacts.

Import Distribution.

Context {World : Type} (env : Env World).

Lemma forEachVault_cons (address : string) (v : VaultData)
    (rest : list VaultData) (w : World) :
  forEachVault env address (v :: rest) w =
  let r := processVault env address v w in
  match outcome r with
  | Some _ =>
      let r' := forEachVault env address rest (after r) in
      mkRun (outcome r') (after r') (events r ++ events r')
  | None => mkRun None (after r) (events r)
  end.
Proof.
  cbn [forEachVault]. unfold await. cbv zeta.
  destruct (processVault env address v w) as [[u|] w1 e1];
    cbn [outcome after events]; [|reflexivity].
  now destruct (forEachVault env address rest w1).
Qed.

(** The calls of the loop are the calls made for its vaults, one vault after
    the other. *)
Lemma forEachVault_events (address : string) (vaults : list VaultData)
    (w : World) :
  events (forEachVault env address vaults w)
  = List.concat (vaultSegments env address vaults w).
Proof.
  revert w. induction vaults as [|v rest IH]; intros w.
  - reflexivity.
  - rewrite forEachVault_cons. cbn [vaultSegments List.concat]. cbv zeta.
    destruct (outcome (processVault env address v w));
      cbn [events List.concat].
    + now rewrite IH.
    + now rewrite app_nil_r.
Qed.

(** A loop that resolves has processed every vault. *)
Lemma forEachVault_resolved (address : string) (vaults : list VaultData)
    (w : World) :
  outcome (forEachVault env address vaults w) = Some tt ->
  List.length (vaultSegments env address vaults w) = List.length vaults.
Proof.
  revert w. induction vaults as [|v rest IH]; intros w.
  - reflexivity.
  - rewrite forEachVault_cons. cbn [vaultSegments List.length]. cbv zeta.
    destruct (outcome (processVault env address v w));
      cbn [outcome]; [|discriminate].
    intros H. now rewrite IH.
Qed.

(** A vault whose processing rejects ends the loop. *)
Lemma forEachVault_abort (address : string) (done rest : list VaultData)
    (v : VaultData) (w : World) :
  outcome (forEachVault env address done w) = Some tt ->
  outcome (processVault env address v
             (after (forEachVault env address done w))) = None ->
  let r1 := forEachVault env address done w in
  let rv := processVault env address v (after r1) in
  let r := forEachVault env address (done ++ v :: rest) w in
  outcome r = None /\ after r = after rv /\
  events r = events r1 ++ events rv /\
  vaultSegments env address (done ++ v :: rest) w
  = vaultSegments env address done w ++ [events rv].
Proof.
  revert w. induction done as [|d done IH]; intros w Hdone Hv; cbv zeta.
  - cbn [forEachVault resolve after] in Hv.
    cbn [app]. rewrite forEachVault_cons. cbn [vaultSegments]. cbv zeta.
    cbn [forEachVault resolve after events]. rewrite Hv.
    cbn [outcome after events app]. repeat split; reflexivity.
  - cbn [app]. rewrite !forEachVault_cons in *. cbn [vaultSegments].
    cbv zeta in *.
    destruct (outcome (processVault env address d w)) as [u|];
      cbn [outcome after events] in *; [|discriminate].
    destruct (IH _ Hdone Hv) as (Ho & Ha & He & Hs).
    rewrite Ho, Ha, He, Hs, app_assoc. repeat split; reflexivity.
Qed.

Lemma run_unfold (vaults : list VaultData) (w : World) (a : Address)
    (w0 : World) :
  governorWallet env w = (Some a, w0) ->
  let r := forEachVault env (addressToString env a) vaults w0 in
  vaultExtraRewardsDistribution env vaults w
  = mkRun (outcome r) (after r) (EvGovernorWallet :: events r).
Proof.
  intros Hw. unfold vaultExtraRewardsDistribution, await, call.
  rewrite Hw. cbv zeta.
  now destruct (forEachVault env (addressToString env a) vaults w0).
Qed.

End OrchestratorFacts.

Section VaultFacts.

Import Distribution.

Context {World : Type} (env : Env World).

(** Case analysis on every call made while one vault is processed, in the
    order the calls are made. *)
Ltac vault_cases :=
  unfold processVault, wait, distributionStep, fundingStep, consoleLog,
    await, call, emit, orThrow, resolve;
  repeat match goal with
  | |- context [match ?x with _ => _ end] =>
      lazymatch x with
      | context [match _ with _ => _ end] => fail
      | _ => destruct x eqn:?
      end
  end;
  cbn [outcome after events].

(** Whatever the collaborators answer, the submissions made for one vault
    are ordered and wrapped. *)
Lemma processVault_ordered (address : string) (v : VaultData) (w : World) :
  submissionsOrdered address None false
    (events (processVault env address v w)) = true.
Proof.
  vault_cases;
    cbn [app submissionsOrdered inside];
    rewrite ?String.eqb_refl; reflexivity.
Qed.

(** The calls of a vault whose processing resolves. *)
Lemma processVault_resolved (address : string) (v : VaultData) (w : World) :
  outcome (processVault env address v w) = Some tt ->
  exists pool data w1 vaultAddr rewards hash sendHash,
    parseAddress env (extraDistributionPool v) = Some pool /\
    getPoolExtraData env pool w = (Some data, w1) /\
    events (processVault env address v w)
    = [EvGetPoolExtraData pool; EvWaitEnter address;
       EvPrepareExtraRewards vaultAddr 100000000 pool]
      ++ (if size rewards >? 0
          then [EvDistributeRewards rewards pool] else [])
      ++ [EvWaitConfirm address; EvConsoleLog (distributionLog env hash);
          EvWaitEnter address;
          EvGovernorSend (tokenWalletAddress data) 150000000;
          EvWaitConfirm address; EvConsoleLog (sendLog env sendHash)].
Proof.
  vault_cases; subst; intros Hres; try discriminate Hres;
    match goal with
    | Hp : parseAddress env (extraDistributionPool v) = Some ?pool,
      Hd : getPoolExtraData env ?pool w = (Some ?data, ?w1),
      Hr : prepareExtraRewards env ?va _ ?pool _ = (Some ?rw, _),
      Hs : (size ?rw >? 0) = _,
      Hh : confirmation env address _ = (Some ?h, ?w3),
      Hh2 : confirmation env address _ = (Some ?h2, ?w4) |- _ =>
        exists pool, data, w1, va, rw, h, h2; rewrite Hs;
        repeat split; first [assumption | reflexivity]
    end.
Qed.

(** Every funding transfer made for a vault sends the budget plus the fee to
    the token wallet read from the pool. *)
Lemma processVault_sends (address : string) (v : VaultData) (w : World)
    (to : Address) (amount : Z) :
  In (EvGovernorSend to amount) (events (processVault env address v w)) ->
  amount = toNano (mkDecimal 1 1) + toNano (mkDecimal 5 2) /\
  exists pool data w1,
    parseAddress env (extraDistributionPool v) = Some pool /\
    getPoolExtraData env pool w = (Some data, w1) /\
    to = tokenWalletAddress data.
Proof.
  vault_cases; subst; cbn [app In]; intros Hin;
    repeat match goal with
    | H : _ \/ _ |- _ => destruct H
    | H : False |- _ => destruct H
    end;
    try discriminate;
    match goal with
    | H : EvGovernorSend _ _ = EvGovernorSend _ _ |- _ =>
        injection H as <- <-
    end;
    (split; [reflexivity|]);
    eexists; eexists; eexists; repeat split; eassumption.
Qed.

(** With an empty rewards dictionary nothing is distributed; and once the
    first [wait] has its confirmation, the funding transfer is submitted. *)
Lemma processVault_empty (address : string) (v : VaultData) (w : World)
    (pool vaultAddr : Address) (data : PoolExtraData) (w1 w2 : World)
    (rewards : RewardsDictionary) :
  parseAddress env (extraDistributionPool v) = Some pool ->
  getPoolExtraData env pool w = (Some data, w1) ->
  parseAddress env (vault v) = Some vaultAddr ->
  prepareExtraRewards env vaultAddr (toNano (mkDecimal 1 1)) pool w1
  = (Some rewards, w2) ->
  size rewards = 0 ->
  filter is_distribute (events (processVault env address v w)) = [] /\
  forall hash w3,
    confirmation env address w2 = (Some hash, w3) ->
    filter is_send (events (processVault env address v w))
    = [EvGovernorSend (tokenWalletAddress data) 150000000].
Proof.
  intros Hp Hd Hv Hr Hs.
  assert (Hz : (size rewards >? 0) = false) by (rewrite Hs; reflexivity).
  unfold processVault, wait, distributionStep, fundingStep, consoleLog,
    await, call, emit, orThrow, resolve.
  rewrite Hp, Hd, Hv, Hr, Hz.
  split.
  - vault_cases; reflexivity.
  - intros hash w3 Hc. rewrite Hc. vault_cases; reflexivity.
Qed.

(** The calls of a vault whose processing resolves, with the answers they
    were given. *)
Lemma processVault_resolved_full (address : string) (v : VaultData)
    (w : World) :
  outcome (processVault env address v w) = Some tt ->
  exists pool data w1 vaultAddr rewards w2 hash sendHash,
    parseAddress env (extraDistributionPool v) = Some pool /\
    getPoolExtraData env pool w = (Some data, w1) /\
    parseAddress env (vault v) = Some vaultAddr /\
    prepareExtraRewards env vaultAddr 100000000 pool w1
    = (Some rewards, w2) /\
    events (processVault env address v w)
    = [EvGetPoolExtraData pool; EvWaitEnter address;
       EvPrepareExtraRewards vaultAddr 100000000 pool]
      ++ (if size rewards >? 0
          then [EvDistributeRewards rewards pool] else [])
      ++ [EvWaitConfirm address; EvConsoleLog (distributionLog env hash);
          EvWaitEnter address;
          EvGovernorSend (tokenWalletAddress data) 150000000;
          EvWaitConfirm address; EvConsoleLog (sendLog env sendHash)].
Proof.
  vault_cases; subst; intros Hres; try discriminate Hres;
    match goal with
    | Hp : parseAddress env (extraDistributionPool v) = Some ?pool,
      Hd : getPoolExtraData env ?pool w = (Some ?data, ?w1),
      Hv : parseAddress env (vault v) = Some ?va,
      Hr : prepareExtraRewards env ?va _ ?pool ?w1 = (Some ?rw, ?w2),
      Hs : (size ?rw >? 0) = _,
      Hh : confirmation env address _ = (Some ?h, ?w3),
      Hh2 : confirmation env address _ = (Some ?h2, ?w4) |- _ =>
        exists pool, data, w1, va, rw, w2, h, h2; rewrite Hs;
        repeat split; first [assumption | reflexivity]
    end.
Qed.

(** Whatever the collaborators answer, a confirmation separates the
    distribution of a vault from its funding. *)
Lemma processVault_separated (address : string) (v : VaultData) (w : World) :
  confirmationSeparates address false (events (processVault env address v w))
  = true.
Proof.
  vault_cases;
    cbn [app confirmationSeparates];
    rewrite ?String.eqb_refl; reflexivity.
Qed.

(** With an empty rewards dictionary the first [wait] encloses no
    submission, and the rest of the vault's processing hangs on the
    confirmation that [wait] is given. *)
Lemma processVault_empty_cases (address : string) (v : VaultData)
    (w : World) (pool vaultAddr : Address) (data : PoolExtraData)
    (w1 w2 : World) (rewards : RewardsDictionary) :
  parseAddress env (extraDistributionPool v) = Some pool ->
  getPoolExtraData env pool w = (Some data, w1) ->
  parseAddress env (vault v) = Some vaultAddr ->
  prepareExtraRewards env vaultAddr (toNano (mkDecimal 1 1)) pool w1
  = (Some rewards, w2) ->
  size rewards = 0 ->
  (exists rest,
     events (processVault env address v w)
     = [EvGetPoolExtraData pool; EvWaitEnter address;
        EvPrepareExtraRewards vaultAddr 100000000 pool;
        EvWaitConfirm address] ++ rest) /\
  (forall hash w3,
     confirmation env address w2 = (Some hash, w3) ->
     exists before rest,
       events (processVault env address v w)
       = before
         ++ EvGovernorSend (tokenWalletAddress data) 150000000 :: rest) /\
  (forall w3,
     confirmation env address w2 = (None, w3) ->
     processVault env address v w
     = mkRun None w3
         [EvGetPoolExtraData pool; EvWaitEnter address;
          EvPrepareExtraRewards vaultAddr 100000000 pool;
          EvWaitConfirm address]).
Proof.
  intros Hp Hd Hv Hr Hs.
  assert (Hz : (size rewards >? 0) = false) by (rewrite Hs; reflexivity).
  unfold processVault, wait, distributionStep, fundingStep, consoleLog,
    await, call, emit, orThrow, resolve.
  rewrite Hp, Hd, Hv, Hr, Hz.
  split; [|split].
  - vault_cases; cbn [app]; eexists; reflexivity.
  - intros hash w3 Hc. rewrite Hc.
    exists [EvGetPoolExtraData pool; EvWaitEnter address;
            EvPrepareExtraRewards vaultAddr 100000000 pool;
            EvWaitConfirm address;
            EvConsoleLog (distributionLog env hash); EvWaitEnter address].
    vault_cases; cbn [app]; eexists; reflexivity.
  - intros w3 Hc. rewrite Hc. reflexivity.
Qed.

End VaultFacts.

(* ================================================================== *)
(** * The constant tables (C4, C9) *)

(** C4.  Every opcode constant of the strategy's [Opcodes] and of the vault's
    [OPS] is the documented value of the operation of that name; every
    documented operation is defined by at least one of the two objects, with
    the documented value; and the seventeen documented values fit 32 bits. *)
Theorem opcode_constants_match_documentation :
  Forall (fun e => lookup (fst e) documented_opcodes = Some (snd e))
         Opcodes.entries /\
  Forall (fun e => lookup (fst e) documented_opcodes = Some (snd e))
         Vault.OPS.entries /\
  Forall (fun e => lookup (fst e) Opcodes.entries = Some (snd e)
                   \/ lookup (fst e) Vault.OPS.entries = Some (snd e))
         documented_opcodes /\
  Forall (fun e => uint_ok 32 (snd e)) documented_opcodes /\
  List.length documented_opcodes = 17%nat.
Proof.
  repeat split.
  - repeat (apply Forall_cons; [reflexivity|]). apply Forall_nil.
  - repeat (apply Forall_cons; [reflexivity|]). apply Forall_nil.
  - repeat (apply Forall_cons;
            [first [left; reflexivity | right; reflexivity]|]).
    apply Forall_nil.
  - repeat (apply Forall_cons; [cbn [snd]; const_uint|]). apply Forall_nil.
Qed.

(** C9.  The exit-code constants are the fifteen documented meanings, in the
    documented order, numbered 80 to 94. *)
Theorem exit_codes_enumerate_80_to_94 :
  Vault.EXIT_CODES.entries = number_from 80 documented_exit_meanings /\
  map snd Vault.EXIT_CODES.entries = map Z.of_nat (seq 80 15).
Proof. split; reflexivity. Qed.

(* ================================================================== *)
(** * The orchestrator's claims (C3, C6, C7, C8) *)

Section OrchestratorClaims.

Import Distribution.

Context {World : Type} (env : Env World).

Lemma ordered_after_send (key : string) (w : option string)
    (evs : list Event) :
  submissionsOrdered key w true evs = true ->
  existsb is_distribute evs = false.
Proof.
  revert w. induction evs as [|ev evs IH]; intros w H; [reflexivity|].
  destruct ev; cbn [submissionsOrdered existsb is_distribute orb negb] in *;
    try (eapply IH; exact H).
  - rewrite andb_false_r in H. discriminate H.
  - apply andb_prop in H as [_ H]. eapply IH; exact H.
Qed.

Lemma inside_true (key : string) (w : option string) :
  inside key w = true -> w = Some key.
Proof.
  destruct w as [k|]; cbn [inside]; [|discriminate].
  intros H. apply String.eqb_eq in H. now subst.
Qed.

(** What an accepted scan says about each submission in it. *)
Lemma ordered_sound (key : string) (w : option string) (sent : bool)
    (pre post : list Event) (e : Event) :
  submissionsOrdered key w sent (pre ++ e :: post) = true ->
  (is_distribute e = true ->
   pendingWait w pre = Some key /\ sent = false /\
   existsb is_send pre = false) /\
  (is_send e = true ->
   pendingWait w pre = Some key /\ existsb is_distribute post = false).
Proof.
  revert w sent. induction pre as [|a pre IH]; intros w sent H.
  - cbn [app] in H. split; intros He; destruct e; try discriminate He;
      cbn [submissionsOrdered pendingWait existsb] in *.
    + apply andb_prop in H as [H _]. apply andb_prop in H as [Hi Hs].
      split; [now apply inside_true|]. split; [|reflexivity].
      now destruct sent.
    + apply andb_prop in H as [Hi Hr].
      split; [now apply inside_true|]. eapply ordered_after_send; exact Hr.
  - cbn [app] in H.
    destruct a;
      cbn [submissionsOrdered pendingWait existsb is_send orb] in *;
      try (apply IH; exact H).
    + apply andb_prop in H as [_ H]. apply IH; exact H.
    + apply andb_prop in H as [_ H]. destruct (IH _ _ H) as [Hd Hs].
      split; [|exact Hs].
      intros He. destruct (Hd He) as (_ & Hf & _). discriminate Hf.
Qed.

(** What an accepted scan says about the confirmations around each
    submission. *)
Lemma separated_sound (key : string) (confirmed : bool)
    (pre post : list Event) (e : Event) :
  confirmationSeparates key confirmed (pre ++ e :: post) = true ->
  (is_distribute e = true ->
   confirmed = false /\ existsb is_wait_confirm pre = false) /\
  (is_send e = true -> confirmed = true \/ In (EvWaitConfirm key) pre).
Proof.
  revert confirmed. induction pre as [|a pre IH]; intros c H.
  - cbn [app] in H. split; intros He; destruct e; try discriminate He;
      cbn [confirmationSeparates existsb] in *.
    + apply andb_prop in H as [H _]. split; [|reflexivity].
      now destruct c.
    + apply andb_prop in H as [H _]. now left.
  - cbn [app] in H.
    destruct a;
      cbn [confirmationSeparates existsb is_wait_confirm orb In] in *;
      try (destruct (IH _ H) as [Hd Hs]; split;
           [exact Hd | intros He; destruct (Hs He); [now left | now right; right]]).
    + apply andb_prop in H as [_ H]. destruct (IH _ H) as [Hd Hs]. split;
        [exact Hd
        | intros He; destruct (Hs He); [now left | now right; right]].
    + apply andb_prop in H as [_ H]. destruct (IH _ H) as [Hd Hs]. split;
        [exact Hd
        | intros He; destruct (Hs He); [now left | now right; right]].
    + apply andb_prop in H as [Hk H]. apply String.eqb_eq in Hk. subst key0.
      destruct (IH _ H) as [Hd Hs]. split.
      * intros He. destruct (Hd He) as [Hc _]. discriminate Hc.
      * intros _. right. now left.
Qed.

(** C7.  In a run whose governor wallet resolves to [a], the calls are the
    wallet lookup followed by the calls made for the vaults, one vault after
    the other.  Within each vault every distribution submission and every
    funding transfer is made inside a [wait] keyed on [a]'s address string;
    a distribution is submitted before any funding transfer and before any
    confirmation, a funding transfer only after a confirmation for that key
    and with no distribution after it.  And a vault whose processing
    resolves has gone through both steps: a first [wait] on that key was
    entered, the prepared rewards were distributed in it when there were
    any, its confirmation was awaited, then a second [wait] on the same key
    was entered, the funding transfer was submitted in it, and its
    confirmation was awaited. *)
Theorem distribution_precedes_funding (vaults : list VaultData) (w : World)
    (a : Address) (w0 : World) (v : VaultData) (wv : World) :
  governorWallet env w = (Some a, w0) ->
  let key := addressToString env a in
  events (vaultExtraRewardsDistribution env vaults w)
  = EvGovernorWallet :: List.concat (vaultSegments env key vaults w0) /\
  Forall
    (fun seg =>
       forall pre e post,
         seg = pre ++ e :: post ->
         (is_distribute e = true ->
          pendingWait None pre = Some key /\ existsb is_send pre = false /\
          existsb is_wait_confirm pre = false) /\
         (is_send e = true ->
          pendingWait None pre = Some key /\
          existsb is_distribute post = false /\
          In (EvWaitConfirm key) pre))
    (vaultSegments env key vaults w0) /\
  (outcome (processVault env key v wv) = Some tt ->
   exists pool data w1 vaultAddr rewards wp w2 p1 p2 p3,
     parseAddress env (extraDistributionPool v) = Some pool /\
     getPoolExtraData env pool wv = (Some data, w1) /\
     parseAddress env (vault v) = Some vaultAddr /\
     prepareExtraRewards env vaultAddr 100000000 pool wp
     = (Some rewards, w2) /\
     events (processVault env key v wv)
     = p1 ++ EvWaitConfirm key
          :: p2 ++ EvGovernorSend (tokenWalletAddress data) 150000000 :: p3 /\
     In (EvWaitEnter key) p1 /\
     (0 < size rewards -> In (EvDistributeRewards rewards pool) p1) /\
     In (EvWaitEnter key) p2 /\
     In (EvWaitConfirm key) p3).
Proof.
  intros Hw key. split; [|split].
  - rewrite (run_unfold env vaults w a w0 Hw). cbv zeta. cbn [events].
    now rewrite forEachVault_events.
  - clear Hw. revert w0. induction vaults as [|v0 rest IH]; intros w0.
    + constructor.
    + cbn [vaultSegments]. cbv zeta. constructor.
      * intros pre e post Hseg.
        pose proof (processVault_ordered env key v0 w0) as Hord.
        pose proof (processVault_separated env key v0 w0) as Hsep.
        rewrite Hseg in Hord, Hsep.
        destruct (ordered_sound _ _ _ _ _ _ Hord) as [Hd Hs].
        destruct (separated_sound _ _ _ _ _ Hsep) as [Hd' Hs'].
        split.
        -- intros He. destruct (Hd He) as (H1 & _ & H2).
           destruct (Hd' He) as [_ H3]. repeat split; assumption.
        -- intros He. destruct (Hs He) as [H1 H2].
           destruct (Hs' He) as [H3|H3]; [discriminate H3|].
           repeat split; assumption.
      * destruct (outcome (processVault env key v0 w0));
          [apply IH | constructor].
  - intros Hres.
    destruct (processVault_resolved_full env key v wv Hres)
      as (pool & data & w1 & va & rw & w2 & h & h2 & Hp & Hd & Hv & Hr & He).
    exists pool, data, w1, va, rw, w1, w2.
    exists ([EvGetPoolExtraData pool; EvWaitEnter key;
             EvPrepareExtraRewards va 100000000 pool]
            ++ (if size rw >? 0 then [EvDistributeRewards rw pool] else [])).
    exists [EvConsoleLog (distributionLog env h); EvWaitEnter key].
    exists [EvWaitConfirm key; EvConsoleLog (sendLog env h2)].
    split; [exact Hp|]. split; [exact Hd|]. split; [exact Hv|].
    split; [exact Hr|].
    split; [rewrite He, <- app_assoc; reflexivity|].
    split; [cbn; tauto|].
    split.
    { intros Hpos. apply Z.gtb_lt in Hpos. rewrite Hpos. cbn. tauto. }
    split; cbn; tauto.
Qed.

(** C3 (amended).  The vaults are processed in list order and the loop has
    no handler: when the vaults [done] have been processed and the processing
    of [v] rejects, the run rejects in the state [v] left, its calls are the
    wallet lookup, the calls made for [done] and the calls made for [v], and
    no call is made for any vault of [rest]. *)
Theorem rejection_ends_the_run (done rest : list VaultData) (v : VaultData)
    (w : World) (a : Address) (w0 : World) :
  governorWallet env w = (Some a, w0) ->
  let key := addressToString env a in
  let r1 := forEachVault env key done w0 in
  let rv := processVault env key v (after r1) in
  outcome r1 = Some tt ->
  outcome rv = None ->
  let r := vaultExtraRewardsDistribution env (done ++ v :: rest) w in
  outcome r = None /\ after r = after rv /\
  events r = EvGovernorWallet :: events r1 ++ events rv /\
  vaultSegments env key (done ++ v :: rest) w0
  = vaultSegments env key done w0 ++ [events rv] /\
  List.length (vaultSegments env key (done ++ v :: rest) w0)
  = S (List.length done).
Proof.
  intros Hw key r1 rv Hdone Hv r.
  destruct (forEachVault_abort env key done rest v w0 Hdone Hv)
    as (Ho & Ha & He & Hs).
  unfold r. rewrite (run_unfold env _ w a w0 Hw). cbv zeta.
  cbn [outcome after events]. fold key.
  rewrite Ho, Ha, He, Hs. repeat split; try reflexivity.
  rewrite length_app, (forEachVault_resolved env key done w0 Hdone).
  cbn [List.length]. lia.
Qed.

(** C6 (amended).  For a vault whose rewards dictionary comes back empty,
    [distributeRewards] is not called and the first [wait] encloses no
    submission.  Whether the pool is funded then hangs on that [wait]: when
    it resolves, the funding transfer of the budget plus the fee to the
    pool's token wallet is submitted; when it rejects, the vault's
    processing rejects with no funding transfer. *)
Theorem empty_map_funding_follows_first_wait (address : string)
    (v : VaultData) (w : World) (pool vaultAddr : Address)
    (data : PoolExtraData) (w1 w2 : World) (rewards : RewardsDictionary) :
  parseAddress env (extraDistributionPool v) = Some pool ->
  getPoolExtraData env pool w = (Some data, w1) ->
  parseAddress env (vault v) = Some vaultAddr ->
  prepareExtraRewards env vaultAddr (toNano (mkDecimal 1 1)) pool w1
  = (Some rewards, w2) ->
  size rewards = 0 ->
  filter is_distribute (events (processVault env address v w)) = [] /\
  (exists rest,
     events (processVault env address v w)
     = [EvGetPoolExtraData pool; EvWaitEnter address;
        EvPrepareExtraRewards vaultAddr 100000000 pool;
        EvWaitConfirm address] ++ rest) /\
  (forall hash w3,
     confirmation env address w2 = (Some hash, w3) ->
     In (EvGovernorSend (tokenWalletAddress data) 150000000)
        (events (processVault env address v w))) /\
  (forall w3,
     confirmation env address w2 = (None, w3) ->
     processVault env address v w
     = mkRun None w3
         [EvGetPoolExtraData pool; EvWaitEnter address;
          EvPrepareExtraRewards vaultAddr 100000000 pool;
          EvWaitConfirm address]).
Proof.
  intros Hp Hd Hv Hr Hs.
  destruct (processVault_empty env address v w pool vaultAddr data w1 w2
              rewards Hp Hd Hv Hr Hs) as [Hnone _].
  destruct (processVault_empty_cases env address v w pool vaultAddr data
              w1 w2 rewards Hp Hd Hv Hr Hs) as (Hfirst & Hsend & Hrej).
  split; [exact Hnone|]. split; [exact Hfirst|]. split; [|exact Hrej].
  intros hash w3 Hc. destruct (Hsend hash w3 Hc) as (before & rest & He).
  rewrite He. apply in_or_app. right. now left.
Qed.

(** C8.  Every funding transfer made for a vault sends
    [toNano(0.1) + toNano(0.05)], that is 150000000 nano, to the token wallet
    address of the extra-reward state read from that vault's pool; and a
    vault whose processing resolves has made exactly one such transfer. *)
Theorem funding_sends_budget_plus_fee (address : string) (v : VaultData)
    (w : World) :
  (forall to amount,
     In (EvGovernorSend to amount) (events (processVault env address v w)) ->
     amount = toNano (mkDecimal 1 1) + toNano (mkDecimal 5 2) /\
     amount = 100000000 + 50000000 /\
     exists pool data w1,
       parseAddress env (extraDistributionPool v) = Some pool /\
       getPoolExtraData env pool w = (Some data, w1) /\
       to = tokenWalletAddress data)
  /\
  (outcome (processVault env address v w) = Some tt ->
   exists pool data w1,
     parseAddress env (extraDistributionPool v) = Some pool /\
     getPoolExtraData env pool w = (Some data, w1) /\
     filter is_send (events (processVault env address v w))
     = [EvGovernorSend (tokenWalletAddress data) 150000000]).
Proof.
  split.
  - intros to amount Hin.
    destruct (processVault_sends env address v w to amount Hin) as [Ha Hex].
    split; [exact Ha|]. split; [rewrite Ha; reflexivity | exact Hex].
  - intros Hres.
    destruct (processVault_resolved env address v w Hres)
      as (pool & data & w1 & va & rw & h & h2 & Hp & Hd & He).
    exists pool, data, w1. split; [exact Hp|]. split; [exact Hd|].
    rewrite He. rewrite !filter_app.
    destruct (size rw >? 0); reflexivity.
Qed.

End OrchestratorClaims.

(* ------------------------------------------------------------------ *)
(** ** The claims on the sample deployment *)

Section SampleRuns.

Import Distribution.

(** C3, as stated, fails: with pool A unreachable the processing of vault A
    rejects, and vault B, whose processing would resolve, is never
    processed. *)
Lemma rejected_vault_blocks_the_next :
  outcome (processVault (sampleEnv true) sampleKey dataA 0%nat) = None /\
  outcome (processVault (sampleEnv true) sampleKey dataB 0%nat) = Some tt /\
  outcome (vaultExtraRewardsDistribution (sampleEnv true) [dataA; dataB] 0%nat)
  = None /\
  events (vaultExtraRewardsDistribution (sampleEnv true) [dataA; dataB] 0%nat)
  = [EvGovernorWallet; EvGetPoolExtraData poolA] /\
  ~ In (EvGetPoolExtraData poolB)
       (events (vaultExtraRewardsDistribution (sampleEnv true)
                  [dataA; dataB] 0%nat)).
Proof.
  repeat split; try (vm_compute; reflexivity).
  vm_compute. intros [H|[H|[]]]; discriminate H.
Qed.

(** Vault B resolves, then vault A rejects: the second vault B is never
    reached. *)
Lemma rejection_ends_the_run_witness :
  governorWallet (sampleEnv true) 0%nat = (Some governorAddress, 0%nat) /\
  outcome (forEachVault (sampleEnv true) sampleKey [dataB] 0%nat) = Some tt /\
  outcome (processVault (sampleEnv true) sampleKey dataA 2%nat) = None /\
  outcome (vaultExtraRewardsDistribution (sampleEnv true)
             ([dataB] ++ dataA :: [dataB]) 0%nat) = None /\
  List.length (vaultSegments (sampleEnv true) sampleKey
                 ([dataB] ++ dataA :: [dataB]) 0%nat) = 2%nat.
Proof.
  split; [reflexivity|]. split; [reflexivity|]. split; [reflexivity|].
  pose proof (rejection_ends_the_run (sampleEnv true) [dataB] [dataB] dataA
                0%nat governorAddress 0%nat eq_refl eq_refl eq_refl)
    as (Ho & _ & _ & _ & Hl).
  split; [exact Ho | exact Hl].
Defined.

(** C6, as stated, fails: on a ledger that confirms only what was
    submitted, vault B has no holder, nothing is submitted in its first
    [wait], that [wait] rejects and the pool is not funded; vault A, which
    has a holder, goes through on the same ledger. *)
Lemma empty_map_unconfirmed_wait_blocks_funding :
  prepareExtraRewards ledgerEnv vaultB (toNano (mkDecimal 1 1)) poolB
    (0%nat, 0%nat) = (Some [], (0%nat, 0%nat)) /\
  outcome (processVault ledgerEnv sampleKey dataB (0%nat, 0%nat)) = None /\
  events (processVault ledgerEnv sampleKey dataB (0%nat, 0%nat))
  = [EvGetPoolExtraData poolB; EvWaitEnter sampleKey;
     EvPrepareExtraRewards vaultB 100000000 poolB;
     EvWaitConfirm sampleKey] /\
  existsb is_send
    (events (processVault ledgerEnv sampleKey dataB (0%nat, 0%nat))) = false /\
  outcome (processVault ledgerEnv sampleKey dataA (0%nat, 0%nat)) = Some tt /\
  existsb is_send
    (events (processVault ledgerEnv sampleKey dataA (0%nat, 0%nat))) = true.
Proof. repeat split; vm_compute; reflexivity. Qed.

(** Vault B has no holder: where the first wait resolves the pool is funded,
    on the ledger that confirms only what was submitted it is not. *)
Lemma empty_map_funding_follows_first_wait_witness :
  parseAddress (sampleEnv false) "pool-B" = Some poolB /\
  getPoolExtraData (sampleEnv false) poolB 0%nat
  = (Some (mkPoolExtraData (mkAddress 0 1020)), 0%nat) /\
  parseAddress (sampleEnv false) "vault-B" = Some vaultB /\
  prepareExtraRewards (sampleEnv false) vaultB (toNano (mkDecimal 1 1)) poolB
    0%nat = (Some [], 0%nat) /\
  size [] = 0 /\
  filter is_distribute
    (events (processVault (sampleEnv false) sampleKey dataB 0%nat)) = [] /\
  In (EvGovernorSend (mkAddress 0 1020) 150000000)
     (events (processVault (sampleEnv false) sampleKey dataB 0%nat)) /\
  processVault ledgerEnv sampleKey dataB (0%nat, 0%nat)
  = mkRun None (0%nat, 0%nat)
      [EvGetPoolExtraData poolB; EvWaitEnter sampleKey;
       EvPrepareExtraRewards vaultB 100000000 poolB;
       EvWaitConfirm sampleKey].
Proof.
  do 5 (split; [reflexivity|]).
  destruct (empty_map_funding_follows_first_wait (sampleEnv false) sampleKey
              dataB 0%nat poolB vaultB (mkPoolExtraData (mkAddress 0 1020))
              0%nat 0%nat [] eq_refl eq_refl eq_refl eq_refl eq_refl)
    as (Hnone & _ & Hsend & _).
  destruct (empty_map_funding_follows_first_wait ledgerEnv sampleKey
              dataB (0%nat, 0%nat) poolB vaultB
              (mkPoolExtraData (mkAddress 0 1020))
              (0%nat, 0%nat) (0%nat, 0%nat) []
              eq_refl eq_refl eq_refl eq_refl eq_refl)
    as (_ & _ & _ & Hrej).
  split; [exact Hnone|].
  split; [exact (Hsend "tx-0"%string 0%nat eq_refl)|].
  exact (Hrej (0%nat, 0%nat) eq_refl).
Defined.

(** A full run over both sample vaults, and vault A on its own. *)
Lemma distribution_precedes_funding_witness :
  governorWallet (sampleEnv false) 0%nat = (Some governorAddress, 0%nat) /\
  outcome (processVault (sampleEnv false) sampleKey dataA 0%nat) = Some tt /\
  events (vaultExtraRewardsDistribution (sampleEnv false) [dataA; dataB] 0%nat)
  = EvGovernorWallet
    :: List.concat
         (vaultSegments (sampleEnv false) sampleKey [dataA; dataB] 0%nat)
  /\
  Forall
    (fun seg =>
       forall pre e post,
         seg = pre ++ e :: post ->
         (is_distribute e = true ->
          pendingWait None pre = Some sampleKey /\
          existsb is_send pre = false /\
          existsb is_wait_confirm pre = false) /\
         (is_send e = true ->
          pendingWait None pre = Some sampleKey /\
          existsb is_distribute post = false /\
          In (EvWaitConfirm sampleKey) pre))
    (vaultSegments (sampleEnv false) sampleKey [dataA; dataB] 0%nat) /\
  exists pool data w1 vaultAddr rewards wp w2 p1 p2 p3,
    parseAddress (sampleEnv false) "pool-A" = Some pool /\
    getPoolExtraData (sampleEnv false) pool 0%nat = (Some data, w1) /\
    parseAddress (sampleEnv false) "vault-A" = Some vaultAddr /\
    prepareExtraRewards (sampleEnv false) vaultAddr 100000000 pool wp
    = (Some rewards, w2) /\
    events (processVault (sampleEnv false) sampleKey dataA 0%nat)
    = p1 ++ EvWaitConfirm sampleKey
         :: p2 ++ EvGovernorSend (tokenWalletAddress data) 150000000 :: p3 /\
    In (EvWaitEnter sampleKey) p1 /\
    (0 < size rewards -> In (EvDistributeRewards rewards pool) p1) /\
    In (EvWaitEnter sampleKey) p2 /\
    In (EvWaitConfirm sampleKey) p3.
Proof.
  split; [reflexivity|]. split; [reflexivity|].
  destruct (distribution_precedes_funding (sampleEnv false) [dataA; dataB]
              0%nat governorAddress 0%nat dataA 0%nat eq_refl)
    as (Hev & Hall & Hres).
  split; [exact Hev|]. split; [exact Hall|]. exact (Hres eq_refl).
Defined.

(** Vault A's funding transfer. *)
Lemma funding_sends_budget_plus_fee_witness :
  outcome (processVault (sampleEnv false) sampleKey dataA 0%nat) = Some tt /\
  In (EvGovernorSend (mkAddress 0 1010) 150000000)
     (events (processVault (sampleEnv false) sampleKey dataA 0%nat)) /\
  (exists pool data w1,
     parseAddress (sampleEnv false) "pool-A" = Some pool /\
     getPoolExtraData (sampleEnv false) pool 0%nat = (Some data, w1) /\
     filter is_send (events (processVault (sampleEnv false) sampleKey dataA 0%nat))
     = [EvGovernorSend (tokenWalletAddress data) 150000000]) /\
  (150000000 = toNano (mkDecimal 1 1) + toNano (mkDecimal 5 2) /\
   150000000 = 100000000 + 50000000 /\
   exists pool data w1,
     parseAddress (sampleEnv false) "pool-A" = Some pool /\
     getPoolExtraData (sampleEnv false) pool 0%nat = (Some data, w1) /\
     mkAddress 0 1010 = tokenWalletAddress data).
Proof.
  assert (Hin : In (EvGovernorSend (mkAddress 0 1010) 150000000)
                   (events (processVault (sampleEnv false) sampleKey dataA 0%nat))).
  { vm_compute. do 7 right. left. reflexivity. }
  split; [reflexivity|]. split; [exact Hin|].
  destruct (funding_sends_budget_plus_fee (sampleEnv false) sampleKey dataA 0%nat)
    as [Hall Hone].
  split; [exact (Hone eq_refl) | exact (Hall _ _ Hin)].
Defined.

End SampleRuns.

(* ================================================================== *)
(** * Further properties of the message builders *)

Lemma writeBits_overflow (bs : list bool) (b : Builder) :
  MAX_BITS < len (b_bits b) + len bs -> writeBits bs b = Err CellOverflow.
Proof.
  intros H. unfold writeBits.
  destruct (Z.leb_spec (len (b_bits b) + len bs) MAX_BITS); [lia|reflexivity].
Qed.

Lemma coins_ok_dec (v : Z) : {coins_ok v} + {~ coins_ok v}.
Proof.
  unfold coins_ok.
  destruct (Z_le_dec 0 v); destruct (Z_lt_dec v (2 ^ 120));
    first [left; lia | right; lia].
Qed.

Lemma address_ok_dec (a : Address) : {address_ok a} + {~ address_ok a}.
Proof.
  unfold address_ok.
  destruct (Z_le_dec (-128) (workChain a));
    destruct (Z_lt_dec (workChain a) 128);
    destruct (Z_le_dec 0 (hash a));
    destruct (Z_lt_dec (hash a) (2 ^ 256));
    first [left; lia | right; lia].
Qed.

(** A coin amount outside [0, 2^120) is refused before anything is
    written. *)
Lemma storeCoins_range (v : Z) (b : Builder) :
  ~ coins_ok v -> storeCoins v b = Err RangeError.
Proof.
  unfold coins_ok, storeCoins. intros H.
  destruct (Z.ltb_spec v 0); [reflexivity|].
  destruct (Z.eqb_spec v 0) as [->|Hne]; [exfalso; lia|].
  rewrite storeUint_range; [reflexivity|].
  unfold uint_ok, sizeBytes. change (2 ^ Z.of_nat 4) with 16.
  assert (Hl : 120 <= Z.log2 v) by (apply Z.log2_le_pow2; lia).
  assert (16 <= (Z.log2 v + 1 + 7) / 8)
    by (apply Z.div_le_lower_bound; lia).
  lia.
Qed.

Lemma storeInt_range (v : Z) (b : Builder) :
  ~ (-128 <= v < 128) -> storeInt v 8 b = Err RangeError.
Proof.
  intros H. unfold storeInt.
  assert (Hp : 2 ^ (Z.of_nat 8 - 1) = 128) by reflexivity.
  destruct (Z.leb_spec (- 2 ^ (Z.of_nat 8 - 1)) v);
    destruct (Z.ltb_spec v (2 ^ (Z.of_nat 8 - 1)));
    cbn [andb]; try reflexivity. lia.
Qed.

(** An ill-formed address is refused once its 3-bit prefix is written. *)
Lemma storeAddress_range (a : Address) (b : Builder) :
  ~ address_ok a ->
  len (b_bits b) + 11 <= MAX_BITS ->
  storeAddress a b = Err RangeError.
Proof.
  intros Hbad Hlen. unfold storeAddress.
  rewrite storeUint_ok; [|unfold uint_ok; simpl; lia|lia].
  cbn [bind].
  rewrite storeUint_ok; [|unfold uint_ok; simpl; lia|len_simpl; lia].
  cbn [bind].
  destruct (Z_le_dec (-128) (workChain a));
    [destruct (Z_lt_dec (workChain a) 128)|].
  - rewrite storeInt_ok; [|lia|len_simpl; lia]. cbn [bind].
    apply storeUint_range. unfold address_ok, uint_ok in *.
    change (Z.of_nat 256) with 256. lia.
  - rewrite storeInt_range by lia. reflexivity.
  - rewrite storeInt_range by lia. reflexivity.
Qed.

(** A well-formed address that no longer fits overflows the cell. *)
Lemma storeAddress_overflow (a : Address) (b : Builder) :
  address_ok a ->
  len (b_bits b) + 11 <= MAX_BITS ->
  MAX_BITS < len (b_bits b) + 267 ->
  storeAddress a b = Err CellOverflow.
Proof.
  intros [Hw Hh] Hfit Hover. unfold storeAddress.
  rewrite storeUint_ok; [|unfold uint_ok; simpl; lia|lia].
  cbn [bind].
  rewrite storeUint_ok; [|unfold uint_ok; simpl; lia|len_simpl; lia].
  cbn [bind].
  rewrite storeInt_ok; [|exact Hw|len_simpl; lia].
  cbn [bind].
  unfold storeUint. change (Z.of_nat 256) with 256.
  destruct (Z.leb_spec 0 (hash a)); [|lia].
  destruct (Z.ltb_spec (hash a) (2 ^ 256)); [|lia].
  cbn [andb]. apply writeBits_overflow.
  len_simpl. lia.
Qed.

(** One store of a builder chain: either the field fits and is appended, or
    the chain stops with a RangeError. *)
Ltac store_total :=
  unfold storeBit, storeRefOf, endCell; cbn [bind];
  match goal with
  | |- context [storeUint ?v ?n ?b] =>
      let H := fresh "Hfit" in
      destruct (uint_ok_dec (Z.of_nat n) v) as [H|H];
      [ rewrite (storeUint_ok v n b H) by len_side
      | rewrite (storeUint_range v n b H); cbn [bind]; right; reflexivity ]
  | |- context [storeCoins ?v ?b] =>
      let H := fresh "Hfit" in
      destruct (coins_ok_dec v) as [H|H];
      [ pose proof (len_encCoins v H);
        rewrite (storeCoins_ok v b H) by len_side
      | rewrite (storeCoins_range v b H); cbn [bind]; right; reflexivity ]
  | |- context [storeAddress ?a ?b] =>
      let H := fresh "Hfit" in
      destruct (address_ok_dec a) as [H|H];
      [ rewrite (storeAddress_ok a b H) by len_side
      | rewrite (storeAddress_range a b H) by len_side;
        cbn [bind]; right; reflexivity ]
  | |- context [storeRef ?c ?b] => rewrite (storeRef_ok c b) by len_side
  | |- context [writeBits ?bs ?b] => rewrite (writeBits_ok bs b) by len_side
  end.

Lemma build_ok_or_range (c : BuilderCall) :
  (exists msg, build c = OK msg) \/ build c = Err RangeError.
Proof.
  destruct c as [o|o|o|o|o|o|o|o|o]; cbn [build];
    [ unfold TonJettonTonStrategy.sendReinvest
    | unfold TonJettonTonStrategy.sendSetJettonWalletAddress
    | unfold TonJettonTonStrategy.sendSetDepositLpWalletAddress
    | unfold Vault.sendDepositNotification, Vault.prepareDepositPayload
    | unfold Vault.sendReinvest
    | unfold Vault.sendSetStrategyAddress
    | unfold Vault.sendWithdrawManagementFee
    | unfold Vault.sendSetIsLocked
    | unfold Vault.sendSetManagementFeeRate ];
    repeat store_total;
    unfold storeBit, storeRefOf, endCell; cbn [bind];
    left; eexists; reflexivity.
Qed.

(** X1.  Each of the nine message builders either is given a valid options
    record and produces the message laid out field by field, or is given an
    invalid one and throws a RangeError; no options record makes a builder
    overflow a cell. *)
Theorem builders_fail_only_by_range (c : BuilderCall) :
  (valid_call c /\
   build c = OK (mkInternal (valueOf c) PAY_GAS_SEPARATELY (layout c)))
  \/ (~ valid_call c /\ build c = Err RangeError).
Proof.
  destruct (build_ok_or_range c) as [[msg Hb]|He].
  - left. pose proof (build_inv c msg Hb) as Hv.
    split; [exact Hv | now apply build_ok].
  - right. split; [|exact He].
    intros Hv. rewrite (build_ok c Hv) in He. discriminate He.
Qed.

Lemma len_encField_bounds (f : Field) (v : FieldValue) :
  field_ok f v -> minBits f <= len (encField f v) <= maxBits f.
Proof.
  destruct f, v; cbn [field_ok encField minBits maxBits]; intros H;
    try contradiction.
  - rewrite len_encUint. lia.
  - apply len_encCoins. exact H.
  - rewrite len_encAddress. lia.
  - rewrite len_encUint. cbn. lia.
Qed.

Lemma len_encFields_bounds (fs : list Field) (vs : list FieldValue) :
  fields_in_domain fs vs ->
  sumZ (map minBits fs) <= len (encFields fs vs) <= sumZ (map maxBits fs).
Proof.
  revert vs. induction fs as [|f fs IH]; intros [|v vs] H;
    cbn [fields_in_domain] in H; try contradiction.
  - cbn. lia.
  - destruct H as [Hf Hrest].
    cbn [encFields map sumZ fold_right]. rewrite len_app.
    pose proof (len_encField_bounds f v Hf).
    specialize (IH vs Hrest). unfold sumZ in IH. lia.
Qed.

(** X2.  Every body a builder produces stays well inside the cell limits: at
    most 488 flat bits and at most one child cell, which has at most 900 bits
    and no children. *)
Theorem bodies_fit_their_cells (c : BuilderCall) (msg : InternalMessage) :
  build c = OK msg ->
  4 <= len (c_bits (body msg)) <= 488 /\
  (List.length (c_refs (body msg)) <= 1)%nat /\
  Forall (fun child => 32 <= len (c_bits child) <= 900 /\ c_refs child = [])
         (c_refs (body msg)).
Proof.
  intros Hb. apply build_spec in Hb as [Hv ->]. cbn [body].
  pose proof (len_encFields_bounds _ _ (outer_in_domain c Hv)) as Ho.
  unfold layout. cbn [c_bits c_refs].
  split.
  - destruct c; cbn [outerSchema map minBits maxBits sumZ fold_right] in Ho;
      cbn [outerSchema]; change (Z.of_nat 32) with 32 in Ho;
      change (Z.of_nat 64) with 64 in Ho; change (Z.of_nat 16) with 16 in Ho;
      change (Z.of_nat 1) with 1 in Ho; lia.
  - destruct (childSchema c) as [fs|] eqn:Hfs;
      [|split; [cbn; lia | constructor]].
    split; [cbn; lia|].
    constructor; [|constructor]. cbn [c_bits c_refs].
    split; [|reflexivity].
    pose proof (len_encFields_bounds _ _ (child_in_domain c fs Hv Hfs)) as Hc.
    destruct c; cbn [childSchema] in Hfs; inversion Hfs; subst fs;
      cbn [map minBits maxBits sumZ fold_right] in Hc;
      change (Z.of_nat 32) with 32 in Hc;
      change (Z.of_nat 64) with 64 in Hc; lia.
Qed.

(** The vault's sample reinvest: 100 flat bits, one child. *)
Lemma bodies_fit_their_cells_witness :
  exists msg,
    build (VaultReinvest sample_vault_reinvest) = OK msg /\
    4 <= len (c_bits (body msg)) <= 488 /\
    (List.length (c_refs (body msg)) <= 1)%nat /\
    Forall (fun child => 32 <= len (c_bits child) <= 900 /\ c_refs child = [])
           (c_refs (body msg)).
Proof.
  assert (Hv : valid_call (VaultReinvest sample_vault_reinvest))
    by sample_valid.
  eexists. split; [exact (build_ok _ Hv)|].
  exact (bodies_fit_their_cells _ _ (build_ok _ Hv)).
Defined.

(** X3.  The setters, the fee withdrawal and the deposit notification read
    back field by field: the opcode, the query id (0 when omitted) and the
    payload fields in the order stored.  The address setters, the lock
    setter and the fee withdrawal have no child cell; the deposit
    notification ends with a set bit and carries one child cell holding only
    the 32-bit deposit opcode. *)
Theorem flat_builders_round_trip (c : BuilderCall) :
  valid_call c ->
  match c with
  | StrategySetJettonWalletAddress o =>
      exists msg,
        TonJettonTonStrategy.sendSetJettonWalletAddress o = OK msg /\
        c_refs (body msg) = [] /\
        readFields [FUint 32; FUint 64; FAddress] (c_bits (body msg))
        = Some
            [VNum Opcodes.set_jetton_wallet_address;
             VNum (TonJettonTonStrategy.SetJettonWalletAddressOpts.queryId o
                   ?? 0);
             VAddr
               (TonJettonTonStrategy.SetJettonWalletAddressOpts.walletAddress
                  o)]
  | StrategySetDepositLpWalletAddress o =>
      exists msg,
        TonJettonTonStrategy.sendSetDepositLpWalletAddress o = OK msg /\
        c_refs (body msg) = [] /\
        readFields [FUint 32; FUint 64; FAddress] (c_bits (body msg))
        = Some
            [VNum Opcodes.set_deposit_lp_wallet_address;
             VNum (TonJettonTonStrategy.SetDepositLpWalletAddressOpts.queryId
                     o ?? 0);
             VAddr
               (TonJettonTonStrategy.SetDepositLpWalletAddressOpts.walletAddress
                  o)]
  | VaultDepositNotification o =>
      exists msg child,
        Vault.sendDepositNotification o = OK msg /\
        c_refs (body msg) = [child] /\ c_refs child = [] /\
        readFields [FUint 32; FUint 64; FCoins; FAddress; FBit]
          (c_bits (body msg))
        = Some
            [VNum Vault.OPS.transfer_notification;
             VNum (Vault.DepositNotificationOpts.queryId o ?? 0);
             VNum (Vault.DepositNotificationOpts.jettonAmount o);
             VAddr (Vault.DepositNotificationOpts.fromAddress o);
             VNum 1] /\
        readFields [FUint 32] (c_bits child) = Some [VNum Vault.OPS.deposit]
  | VaultSetStrategyAddress o =>
      exists msg,
        Vault.sendSetStrategyAddress o = OK msg /\
        c_refs (body msg) = [] /\
        readFields [FUint 32; FUint 64; FAddress] (c_bits (body msg))
        = Some
            [VNum Vault.OPS.set_strategy_address;
             VNum (Vault.SetStrategyAddressOpts.queryId o ?? 0);
             VAddr (Vault.SetStrategyAddressOpts.strategyAddress o)]
  | VaultWithdrawManagementFee o =>
      exists msg,
        Vault.sendWithdrawManagementFee o = OK msg /\
        c_refs (body msg) = [] /\
        readFields [FUint 32; FUint 64; FAddress; FCoins] (c_bits (body msg))
        = Some
            [VNum Vault.OPS.withdraw_management_fee;
             VNum (Vault.WithdrawManagementFeeOpts.queryId o ?? 0);
             VAddr (Vault.WithdrawManagementFeeOpts.receiver o);
             VNum (Vault.WithdrawManagementFeeOpts.amount o)]
  | VaultSetIsLocked o =>
      exists msg,
        Vault.sendSetIsLocked o = OK msg /\
        c_refs (body msg) = [] /\
        readFields [FUint 32; FUint 64; FUint 1] (c_bits (body msg))
        = Some
            [VNum Vault.OPS.set_is_locked;
             VNum (Vault.SetIsLockedOpts.queryId o ?? 0);
             VNum (Vault.SetIsLockedOpts.isLocked o)]
  | _ => True
  end.
Proof.
  intros Hv.
  destruct c; try exact I;
    destruct (build_reads _ Hv) as (msg & Hb & Ho & Hn);
    cbn [childSchema] in Hn;
    try (exists msg; repeat split; assumption).
  destruct Hn as (child & Hr & Hnil & Hc).
  exists msg, child. repeat split; assumption.
Qed.

(** A deposit notification of 0.25 jetton units with query id 7. *)
Lemma flat_builders_round_trip_witness :
  valid_call (VaultDepositNotification sample_deposit_notification) /\
  exists msg child,
    Vault.sendDepositNotification sample_deposit_notification = OK msg /\
    c_refs (body msg) = [child] /\ c_refs child = [] /\
    readFields [FUint 32; FUint 64; FCoins; FAddress; FBit]
      (c_bits (body msg))
    = Some [VNum 1935855772; VNum 7; VNum 250000000; VAddr sample_address;
            VNum 1] /\
    readFields [FUint 32] (c_bits child) = Some [VNum 2514197817].
Proof.
  assert (Hv : valid_call
                 (VaultDepositNotification sample_deposit_notification))
    by sample_valid.
  split; [exact Hv|].
  exact (flat_builders_round_trip
           (VaultDepositNotification sample_deposit_notification) Hv).
Defined.

(* ================================================================== *)
(** * The persisted configurations *)

Ltac strategy_config_fields :=
  cbn [TonJettonTonStrategy.vaultAddress
       TonJettonTonStrategy.jettonMasterAddress
       TonJettonTonStrategy.poolAddress TonJettonTonStrategy.poolType
       TonJettonTonStrategy.depositLpWalletAddress
       TonJettonTonStrategy.jettonWalletAddress
       TonJettonTonStrategy.adminAddress
       TonJettonTonStrategy.jettonVaultAddress
       TonJettonTonStrategy.nativeVaultAddress
       TonJettonTonStrategy.tempUpgrade] in *.

Lemma strategyConfigToCell_ok_or_range
    (config : TonJettonTonStrategy.TonJettonTonStrategyConfig) :
  (exists cell,
     TonJettonTonStrategy.tonJettonTonStrategyConfigToCell config = OK cell)
  \/ TonJettonTonStrategy.tonJettonTonStrategyConfigToCell config
     = Err RangeError.
Proof.
  unfold TonJettonTonStrategy.tonJettonTonStrategyConfigToCell.
  destruct config. strategy_config_fields.
  repeat store_total.
  unfold storeBit, storeRefOf, endCell; cbn [bind].
  left; eexists; reflexivity.
Qed.

Lemma strategyConfigToCell_ok
    (config : TonJettonTonStrategy.TonJettonTonStrategyConfig) :
  strategyConfig_ok config ->
  TonJettonTonStrategy.tonJettonTonStrategyConfigToCell config
  = OK (mkCell (encFields strategyConfigSchema (strategyConfigValues config))
          [mkCell (encFields [FAddress; FAddress; FAddress]
                     (strategyWalletValues config)) [];
           mkCell (encFields [FAddress; FAddress]
                     (strategyVaultValues config)) [];
           TonJettonTonStrategy.tempUpgrade config]).
Proof.
  unfold strategyConfig_ok, strategyConfigSchema, strategyConfigValues,
    strategyWalletValues, strategyVaultValues.
  destruct config. strategy_config_fields.
  cbn [fields_in_domain field_ok encFields encField].
  intros H.
  repeat match goal with H : _ /\ _ |- _ => destruct H end.
  unfold TonJettonTonStrategy.tonJettonTonStrategyConfigToCell.
  strategy_config_fields.
  repeat store_ok.
  unfold endCell, append; cbn [bind b_bits b_refs beginCell].
  rewrite <- ?app_assoc, ?app_nil_r; cbn [app]. reflexivity.
Qed.

Lemma strategyConfigToCell_inv
    (config : TonJettonTonStrategy.TonJettonTonStrategyConfig) (cell : Cell) :
  TonJettonTonStrategy.tonJettonTonStrategyConfigToCell config = OK cell ->
  strategyConfig_ok config.
Proof.
  unfold TonJettonTonStrategy.tonJettonTonStrategyConfigToCell.
  intros H. invert_chain.
  unfold strategyConfig_ok, strategyConfigSchema, strategyConfigValues,
    strategyWalletValues, strategyVaultValues.
  cbn [fields_in_domain field_ok].
  repeat match goal with |- _ /\ _ => split end;
    first [assumption | exact I].
Qed.

(** X4.  [tonJettonTonStrategyConfigToCell] succeeds exactly when the eight
    addresses are well formed and [poolType] is 0 or 1, and throws a
    RangeError otherwise; it never overflows.  The cell it builds has 802
    flat bits that read back as the vault, jetton master and pool addresses
    and the pool type, and three children in this order: the cell of the
    deposit LP wallet, jetton wallet and admin addresses, the cell of the
    jetton vault and native vault addresses, and [tempUpgrade] as given. *)
Theorem strategy_config_cell
    (config : TonJettonTonStrategy.TonJettonTonStrategyConfig) :
  (strategyConfig_ok config /\
   exists cell wallets vaults,
     TonJettonTonStrategy.tonJettonTonStrategyConfigToCell config = OK cell /\
     len (c_bits cell) = 802 /\
     readFields strategyConfigSchema (c_bits cell)
     = Some (strategyConfigValues config) /\
     c_refs cell = [wallets; vaults; TonJettonTonStrategy.tempUpgrade config]
     /\
     readFields [FAddress; FAddress; FAddress] (c_bits wallets)
     = Some (strategyWalletValues config) /\
     c_refs wallets = [] /\
     readFields [FAddress; FAddress] (c_bits vaults)
     = Some (strategyVaultValues config) /\
     c_refs vaults = [])
  \/
  (~ strategyConfig_ok config /\
   TonJettonTonStrategy.tonJettonTonStrategyConfigToCell config
   = Err RangeError).
Proof.
  destruct (strategyConfigToCell_ok_or_range config) as [[cell Hc]|He].
  - left. pose proof (strategyConfigToCell_inv config cell Hc) as Hok.
    split; [exact Hok|].
    pose proof Hok as (H1 & H2 & H3).
    eexists. eexists. eexists.
    split; [apply strategyConfigToCell_ok; exact Hok|].
    cbn [c_bits c_refs].
    split.
    { unfold strategyConfigSchema, strategyConfigValues.
      cbn [encFields encField].
      rewrite !len_app, !len_encAddress, len_encUint. reflexivity. }
    split; [apply readFields_encFields; exact H1|].
    split; [reflexivity|].
    split; [apply readFields_encFields; exact H2|].
    split; [reflexivity|].
    split; [apply readFields_encFields; exact H3 | reflexivity].
  - right. split; [|exact He].
    intros Hok. rewrite (strategyConfigToCell_ok config Hok) in He.
    discriminate He.
Qed.

Ltac vault_config_fields :=
  cbn [Vault.distributionPoolAddress Vault.sharesTotalSupply
       Vault.depositedLp Vault.isLocked Vault.managementFeeRate
       Vault.managementFee Vault.depositLpWalletAddress Vault.adminAddress
       Vault.managerAddress Vault.strategyAddress Vault.sharesWalletCode
       Vault.tempUpgrade] in *.

(** One store of [vaultConfigToCell]; [bad] closes the goal when the field
    is refused. *)
Ltac config_store bad :=
  cbn [bind];
  match goal with
  | |- context [storeUint ?v ?n ?b] =>
      let H := fresh "Hfit" in
      destruct (uint_ok_dec (Z.of_nat n) v) as [H|H];
      [ rewrite (storeUint_ok v n b H) by len_side
      | rewrite (storeUint_range v n b H); cbn [bind]; bad ]
  | |- context [storeCoins ?v ?b] =>
      let H := fresh "Hfit" in
      destruct (coins_ok_dec v) as [H|H];
      [ pose proof (len_encCoins v H);
        rewrite (storeCoins_ok v b H) by len_side
      | rewrite (storeCoins_range v b H); cbn [bind]; bad ]
  | |- context [storeAddress ?a ?b] =>
      let H := fresh "Hfit" in
      destruct (address_ok_dec a) as [H|H];
      [ rewrite (storeAddress_ok a b H) by len_side
      | rewrite (storeAddress_range a b H) by len_side; cbn [bind]; bad ]
  end.

(** The four ways [vaultConfigToCell] can end. *)
Lemma vaultConfigToCell_cases (config : Vault.VaultConfig) :
  let flatOK := fields_in_domain vaultConfigSchema (vaultConfigValues config) in
  let rolesOK :=
    fields_in_domain [FAddress; FAddress; FAddress] (vaultRoleValues config) in
  (flatOK /\ rolesOK /\ vaultCoinBits config <= 488 /\
   Vault.vaultConfigToCell config = OK (vaultConfigCell config))
  \/ (Vault.vaultConfigToCell config = Err RangeError /\
      (~ flatOK \/ (flatOK /\ vaultCoinBits config <= 488 /\ ~ rolesOK)))
  \/ (Vault.vaultConfigToCell config = Err CellOverflow /\
      flatOK /\ 488 < vaultCoinBits config).
Proof.
  unfold Vault.vaultConfigToCell, vaultConfigCell, vaultCoinBits,
    vaultConfigSchema, vaultConfigValues, vaultRoleValues.
  destruct config. vault_config_fields.
  cbn [fields_in_domain field_ok encFields encField]. cbv zeta.
  match goal with
  | |- context [storeRefOf ?x] => set (rolesCell := x)
  end.
  do 6 config_store ltac:(right; left; split; [reflexivity | left; tauto]).
  cbn [bind].
  match goal with
  | |- context [_ <= 488] =>
      match goal with
      | |- context [?n <= 488] => destruct (Z_le_dec n 488) as [Hle|Hgt]
      end
  end.
  - config_store ltac:(right; left; split; [reflexivity | left; tauto]).
    subst rolesCell. unfold storeRefOf. cbn [bind].
    do 3 config_store
      ltac:(right; left; split;
            [reflexivity | right; split; [tauto | split; [lia | tauto]]]).
    unfold endCell. cbn [bind].
    rewrite !storeRef_ok by len_side. cbn [bind].
    left. split; [tauto|]. split; [tauto|]. split; [lia|].
    unfold append; cbn [b_bits b_refs beginCell].
    rewrite <- ?app_assoc, ?app_nil_r; cbn [app]. reflexivity.
  - match goal with
    | |- context [storeAddress ?a ?b] =>
        destruct (address_ok_dec a) as [Ha|Ha];
        [ rewrite (storeAddress_overflow a b Ha) by len_side
        | rewrite (storeAddress_range a b Ha) by len_side ]
    end; cbn [bind].
    + right. right. split; [reflexivity|]. split; [tauto | lia].
    + right. left. split; [reflexivity | left; tauto].
Qed.

(** X5.  [vaultConfigToCell] ends in one of four ways.  With every flat field
    in its domain, the three role addresses well formed and the four coin
    amounts taking at most 488 bits together, it builds a cell of
    535 bits plus the coin bits, which reads back as the configuration, with
    three children in order: the cell of the admin, manager and strategy
    addresses, [sharesWalletCode] and [tempUpgrade].  With valid flat fields
    whose coin amounts take more than 488 bits it overflows the cell, before
    the role addresses are looked at.  With a flat field outside its domain,
    or with a role address ill formed when the flat fields fit, it throws a
    RangeError.  It succeeds in no other case. *)
Theorem vault_config_cell (config : Vault.VaultConfig) :
  (vaultFlat_ok config -> vaultRoles_ok config ->
   vaultCoinBits config <= 488 ->
   exists cell roles,
     Vault.vaultConfigToCell config = OK cell /\
     len (c_bits cell) = 535 + vaultCoinBits config /\
     readFields vaultConfigSchema (c_bits cell)
     = Some (vaultConfigValues config) /\
     c_refs cell
     = [roles; Vault.sharesWalletCode config; Vault.tempUpgrade config] /\
     readFields [FAddress; FAddress; FAddress] (c_bits roles)
     = Some (vaultRoleValues config) /\
     c_refs roles = [])
  /\
  (vaultFlat_ok config -> 488 < vaultCoinBits config ->
   Vault.vaultConfigToCell config = Err CellOverflow)
  /\
  (~ vaultFlat_ok config ->
   Vault.vaultConfigToCell config = Err RangeError)
  /\
  (vaultFlat_ok config -> vaultCoinBits config <= 488 ->
   ~ vaultRoles_ok config ->
   Vault.vaultConfigToCell config = Err RangeError)
  /\
  (forall cell,
     Vault.vaultConfigToCell config = OK cell ->
     vaultFlat_ok config /\ vaultRoles_ok config /\
     vaultCoinBits config <= 488).
Proof.
  unfold vaultFlat_ok, vaultRoles_ok.
  pose proof (vaultConfigToCell_cases config) as Hcases. cbv zeta in Hcases.
  split; [|split; [|split; [|split]]].
  - intros Hf Hr Hle.
    destruct Hcases as [(_ & _ & _ & Hok)|[(_ & [Hn|(_ & _ & Hn)])|(_ & _ & Hgt)]];
      try contradiction; try lia.
    eexists. eexists. split; [exact Hok|].
    unfold vaultConfigCell. cbn [c_bits c_refs].
    split.
    { unfold vaultCoinBits, vaultConfigSchema, vaultConfigValues.
      cbn [encFields encField].
      rewrite !len_app, !len_encAddress, len_encUint.
      change (len (@nil bool)) with 0. change (Z.of_nat 1) with 1. lia. }
    split; [apply readFields_encFields; exact Hf|].
    split; [reflexivity|].
    split; [apply readFields_encFields; exact Hr | reflexivity].
  - intros Hf Hgt.
    destruct Hcases as [(_ & _ & Hle & _)|[(_ & [Hn|(_ & Hle & _)])|(He & _)]];
      try contradiction; try lia. exact He.
  - intros Hn.
    destruct Hcases as [(Hf & _)|[(He & _)|(_ & Hf & _)]];
      try contradiction. exact He.
  - intros Hf Hle Hn.
    destruct Hcases as [(_ & Hr & _)|[(He & _)|(_ & _ & Hgt)]];
      try contradiction; try lia. exact He.
  - intros cell H.
    destruct Hcases as [(Hf & Hr & Hle & _)|[(He & _)|(He & _)]];
      [exact (conj Hf (conj Hr Hle))
      | rewrite He in H; discriminate H
      | rewrite He in H; discriminate H].
Qed.

(** The sample configuration is stored; the one whose four amounts are
    2^119 each has valid fields and overflows. *)
Lemma vault_config_cell_witness :
  (vaultFlat_ok sample_vault_config /\ vaultRoles_ok sample_vault_config /\
   vaultCoinBits sample_vault_config <= 488 /\
   exists cell roles,
     Vault.vaultConfigToCell sample_vault_config = OK cell /\
     len (c_bits cell) = 535 + vaultCoinBits sample_vault_config /\
     readFields vaultConfigSchema (c_bits cell)
     = Some (vaultConfigValues sample_vault_config) /\
     c_refs cell = [roles; sample_cell; sample_cell] /\
     readFields [FAddress; FAddress; FAddress] (c_bits roles)
     = Some (vaultRoleValues sample_vault_config) /\
     c_refs roles = [])
  /\
  (vaultFlat_ok sample_vault_config_large /\
   488 < vaultCoinBits sample_vault_config_large /\
   Vault.vaultConfigToCell sample_vault_config_large = Err CellOverflow).
Proof.
  assert (Hf : vaultFlat_ok sample_vault_config).
  { unfold vaultFlat_ok.
    cbn [fields_in_domain vaultConfigSchema vaultConfigValues field_ok].
    repeat match goal with |- _ /\ _ => split end;
      vm_compute; repeat split;
      first [reflexivity | intros H; discriminate H]. }
  assert (Hr : vaultRoles_ok sample_vault_config).
  { unfold vaultRoles_ok. cbn [fields_in_domain vaultRoleValues field_ok].
    repeat match goal with |- _ /\ _ => split end;
      vm_compute; repeat split;
      first [reflexivity | intros H; discriminate H]. }
  assert (Hle : vaultCoinBits sample_vault_config <= 488)
    by (vm_compute; intros H; discriminate H).
  assert (Hf' : vaultFlat_ok sample_vault_config_large).
  { unfold vaultFlat_ok.
    cbn [fields_in_domain vaultConfigSchema vaultConfigValues field_ok].
    repeat match goal with |- _ /\ _ => split end;
      vm_compute; repeat split;
      first [reflexivity | intros H; discriminate H]. }
  assert (Hgt : 488 < vaultCoinBits sample_vault_config_large)
    by (vm_compute; reflexivity).
  split.
  - split; [exact Hf|]. split; [exact Hr|]. split; [exact Hle|].
    exact (proj1 (vault_config_cell sample_vault_config) Hf Hr Hle).
  - split; [exact Hf'|]. split; [exact Hgt|].
    exact (proj1 (proj2 (vault_config_cell sample_vault_config_large))
             Hf' Hgt).
Defined.

(* ================================================================== *)
(** * Further properties of the orchestrator *)

(** Case analysis on every call made while one vault is processed, in the
    order the calls are made. *)
Ltac vault_run_cases :=
  unfold Distribution.processVault, Distribution.wait,
    Distribution.distributionStep, Distribution.fundingStep,
    Distribution.consoleLog, Distribution.await, Distribution.call,
    Distribution.emit, Distribution.orThrow, Distribution.resolve;
  repeat match goal with
  | |- context [match ?x with _ => _ end] =>
      lazymatch x with
      | context [match _ with _ => _ end] => fail
      | _ => destruct x eqn:?
      end
  end;
  cbn [Distribution.outcome Distribution.after Distribution.events].

Section OrchestratorExtras.

Import Distribution.

Context {World : Type} (env : Env World).







End OrchestratorExtras.


Section WaitDiscipline.

Import Distribution.

Context {World : Type} (env : Env World).

Lemma pendingWait_app (p : option string) (l1 l2 : list Event) :
  pendingWait p (l1 ++ l2) = pendingWait (pendingWait p l1) l2.
Proof.
  revert p. induction l1 as [|e l1 IH]; intros p; [reflexivity|].
  destruct e; cbn [app pendingWait]; apply IH.
Qed.

Lemma waitsSequential_app (p : option string) (l1 l2 : list Event) :
  waitsSequential p (l1 ++ l2)
  = waitsSequential p l1 && waitsSequential (pendingWait p l1) l2.
Proof.
  revert p. induction l1 as [|e l1 IH]; intros p; [reflexivity|].
  destruct e; cbn [app waitsSequential pendingWait]; try apply IH.
  - destruct p; [reflexivity | apply IH].
  - rewrite IH. now rewrite andb_assoc.
Qed.

(** What an accepted scan says about each wait in it. *)
Lemma waitsSequential_sound (p : option string) (pre post : list Event)
    (e : Event) :
  waitsSequential p (pre ++ e :: post) = true ->
  (forall k, e = EvWaitEnter k -> pendingWait p pre = None) /\
  (forall k, e = EvWaitConfirm k -> pendingWait p pre = Some k).
Proof.
  rewrite waitsSequential_app. intros H. apply andb_prop in H as [_ H].
  split; intros k ->; cbn [waitsSequential] in H.
  - destruct (pendingWait p pre); [discriminate H | reflexivity].
  - apply andb_prop in H as [H _]. now apply inside_true.
Qed.

Lemma processVault_waits (address : string) (v : VaultData) (w : World) :
  waitsSequential None (events (processVault env address v w)) = true /\
  (outcome (processVault env address v w) <> None ->
   pendingWait None (events (processVault env address v w)) = None).
Proof.
  vault_run_cases;
    cbn [app waitsSequential pendingWait inside];
    rewrite ?String.eqb_refl;
    (split; [reflexivity | intros H; try reflexivity; now elim H]).
Qed.

Lemma forEachVault_waits (address : string) (vaults : list VaultData)
    (w : World) :
  waitsSequential None (events (forEachVault env address vaults w)) = true /\
  (outcome (forEachVault env address vaults w) <> None ->
   pendingWait None (events (forEachVault env address vaults w)) = None).
Proof.
  revert w. induction vaults as [|v rest IH]; intros w.
  - cbn. split; [reflexivity | intros _; reflexivity].
  - rewrite forEachVault_cons. cbv zeta.
    destruct (processVault_waits address v w) as [Hs Hp].
    destruct (outcome (processVault env address v w)) as [u|];
      cbn [outcome events].
    + specialize (Hp ltac:(discriminate)).
      destruct (IH (after (processVault env address v w))) as [Is Ip].
      rewrite waitsSequential_app, pendingWait_app, Hs, Hp, Is.
      split; [reflexivity | exact Ip].
    + split; [exact Hs | intros H; now elim H].
Qed.

(** X7.  The waits of a run never overlap: whenever a [wait] is entered no
    other [wait] is in progress, and whenever a confirmation is awaited it
    is for the key of the [wait] in progress; a run that resolves leaves no
    [wait] in progress. *)
Theorem waits_never_overlap (vaults : list VaultData) (w : World)
    (pre post : list Event) (e : Event) :
  events (vaultExtraRewardsDistribution env vaults w) = pre ++ e :: post ->
  (forall k, e = EvWaitEnter k -> pendingWait None pre = None) /\
  (forall k, e = EvWaitConfirm k -> pendingWait None pre = Some k) /\
  (outcome (vaultExtraRewardsDistribution env vaults w) <> None ->
   pendingWait None (pre ++ e :: post) = None).
Proof.
  intros Hev.
  assert (Hrun :
            waitsSequential None
              (events (vaultExtraRewardsDistribution env vaults w)) = true /\
            (outcome (vaultExtraRewardsDistribution env vaults w) <> None ->
             pendingWait None
               (events (vaultExtraRewardsDistribution env vaults w)) = None)).
  { destruct (governorWallet env w) as [[a|] w0] eqn:Hw.
    - rewrite (run_unfold env vaults w a w0 Hw). cbv zeta.
      cbn [outcome events waitsSequential pendingWait].
      apply forEachVault_waits.
    - unfold vaultExtraRewardsDistribution, await, call. rewrite Hw.
      cbn [outcome events]. split; [reflexivity | intros H; now elim H]. }
  destruct Hrun as [Hs Hp]. rewrite Hev in Hs, Hp.
  destruct (waitsSequential_sound None pre post e Hs) as [H1 H2].
  split; [exact H1|]. split; [exact H2 | exact Hp].
Qed.


(** X9.  Configuration errors end the run early.  If the governor wallet
    does not resolve, no vault is looked at.  If a vault's pool address does
    not parse, its processing rejects before any call is made for it.  If
    its own address does not parse, its processing rejects after the pool
    state was read and the first [wait] entered, before
    [prepareExtraRewards] is called, and that [wait] is never confirmed. *)
Theorem unusable_configuration_aborts (address : string) (v : VaultData)
    (vaults : list VaultData) (w : World) :
  (forall w0,
     governorWallet env w = (None, w0) ->
     vaultExtraRewardsDistribution env vaults w
     = mkRun None w0 [EvGovernorWallet]) /\
  (parseAddress env (extraDistributionPool v) = None ->
   processVault env address v w = mkRun None w []) /\
  (forall pool data w1,
     parseAddress env (extraDistributionPool v) = Some pool ->
     getPoolExtraData env pool w = (Some data, w1) ->
     parseAddress env (vault v) = None ->
     processVault env address v w
     = mkRun None w1 [EvGetPoolExtraData pool; EvWaitEnter address]).
Proof.
  split; [|split].
  - intros w0 Hw. unfold vaultExtraRewardsDistribution, await, call.
    now rewrite Hw.
  - intros Hp. unfold processVault, await, orThrow. now rewrite Hp.
  - intros pool data w1 Hp Hd Hv.
    unfold processVault, wait, distributionStep, await, orThrow, call, emit.
    now rewrite Hp, Hd, Hv.
Qed.

End WaitDiscipline.

Section SampleExtras.

Import Distribution.

(** In a run over vault B the first [wait] is entered third, with no other
    wait in progress. *)
Lemma waits_never_overlap_witness :
  events (vaultExtraRewardsDistribution (sampleEnv false) [dataB] 0%nat)
  = [EvGovernorWallet; EvGetPoolExtraData poolB]
    ++ EvWaitEnter sampleKey
    :: skipn 3
         (events (vaultExtraRewardsDistribution (sampleEnv false) [dataB]
                    0%nat)) /\
  pendingWait None [EvGovernorWallet; EvGetPoolExtraData poolB] = None /\
  pendingWait None
    (events (vaultExtraRewardsDistribution (sampleEnv false) [dataB] 0%nat))
  = None.
Proof.
  assert (Hev :
            events (vaultExtraRewardsDistribution (sampleEnv false) [dataB]
                      0%nat)
            = [EvGovernorWallet; EvGetPoolExtraData poolB]
              ++ EvWaitEnter sampleKey
              :: skipn 3
                   (events (vaultExtraRewardsDistribution (sampleEnv false)
                              [dataB] 0%nat)))
    by reflexivity.
  split; [exact Hev|].
  destruct (waits_never_overlap (sampleEnv false) [dataB] 0%nat _ _ _ Hev)
    as (Henter & _ & Hend).
  split; [exact (Henter sampleKey eq_refl)|].
  rewrite Hev at 1. apply Hend. discriminate.
Defined.


(** A wallet that does not resolve, a pool address and a vault address that
    do not parse. *)
Lemma unusable_configuration_aborts_witness :
  vaultExtraRewardsDistribution lockedWalletEnv [dataA; dataB] 5%nat
  = mkRun None 5%nat [EvGovernorWallet] /\
  processVault (sampleEnv false) sampleKey dataBadPool 0%nat
  = mkRun None 0%nat [] /\
  processVault (sampleEnv false) sampleKey dataBadVault 0%nat
  = mkRun None 0%nat [EvGetPoolExtraData poolA; EvWaitEnter sampleKey].
Proof.
  split; [|split].
  - exact (proj1 (unusable_configuration_aborts lockedWalletEnv sampleKey
                    dataA [dataA; dataB] 5%nat) 5%nat eq_refl).
  - exact (proj1 (proj2 (unusable_configuration_aborts (sampleEnv false)
                           sampleKey dataBadPool [] 0%nat)) eq_refl).
  - exact (proj2 (proj2 (unusable_configuration_aborts (sampleEnv false)
                           sampleKey dataBadVault [] 0%nat))
             poolA (mkPoolExtraData (mkAddress 0 1010)) 0%nat
             eq_refl eq_refl eq_refl).
Defined.

End SampleExtras.

(* ================================================================== *)
(** * A body identifies its operation *)

(** Compare the first 32 bits of two fully encoded cells. *)
Ltac compare_opcodes H :=
  apply (f_equal (loadUint 32)) in H;
  rewrite <- ?app_assoc in H;
  rewrite !loadUint_encUint in H
    by (split; [vm_compute; congruence | vm_compute; reflexivity]);
  apply (f_equal (fun r : option (Z * list bool) =>
                    match r with Some (v, _) => v | None => 0 end)) in H;
  cbv beta iota in H; vm_compute in H; discriminate H.

Lemma layout_operation (c1 c2 : BuilderCall) :
  layout c1 = layout c2 -> operationOf c1 = operationOf c2.
Proof.
  unfold layout. intros Hb.
  pose proof (f_equal c_bits Hb) as Hbits.
  pose proof (f_equal (fun c => List.length (c_refs c)) Hb) as Hcount.
  pose proof (f_equal (fun c => match c_refs c with
                                | child :: _ => c_bits child
                                | [] => []
                                end) Hb) as Hchild.
  clear Hb.
  destruct c1, c2; try reflexivity; exfalso;
    cbn [outerSchema outerValues childSchema childValues encFields encField
         opcodeOf queryIdOf c_bits c_refs List.length] in Hbits, Hcount,
         Hchild;
    first [ discriminate Hcount
          | compare_opcodes Hbits
          | compare_opcodes Hchild ].
Qed.

(** X10.  Bodies of different operations never coincide: if two builder
    calls produce the same message body, they invoke the same documented
    operation, whatever their field values. *)
Theorem body_identifies_operation (c1 c2 : BuilderCall)
    (m1 m2 : InternalMessage) :
  build c1 = OK m1 ->
  build c2 = OK m2 ->
  body m1 = body m2 ->
  operationOf c1 = operationOf c2.
Proof.
  intros H1 H2 Hb.
  apply build_spec in H1 as [_ ->]. apply build_spec in H2 as [_ ->].
  apply layout_operation. exact Hb.
Qed.

(** The lock setter with the query id omitted and with an explicit 0 share
    a body. *)
Lemma body_identifies_operation_witness :
  exists m1 m2,
    build (VaultSetIsLocked sample_set_is_locked) = OK m1 /\
    build (VaultSetIsLocked sample_set_is_locked_q0) = OK m2 /\
    body m1 = body m2 /\
    operationOf (VaultSetIsLocked sample_set_is_locked)
    = operationOf (VaultSetIsLocked sample_set_is_locked_q0).
Proof.
  assert (Hv : valid_call (VaultSetIsLocked sample_set_is_locked))
    by sample_valid.
  assert (Hv0 : valid_call (VaultSetIsLocked sample_set_is_locked_q0))
    by sample_valid.
  eexists. eexists.
  split; [exact (build_ok _ Hv)|]. split; [exact (build_ok _ Hv0)|].
  split; [reflexivity|].
  exact (body_identifies_operation _ _ _ _ (build_ok _ Hv) (build_ok _ Hv0)
           eq_refl).
Defined.

(** Equal value lists, read off as equal fields. *)
Ltac fields_from_values H :=
  repeat match type of H with
  | _ :: _ = _ :: _ =>
      let Hh := fresh "Hfield" in
      let Ht := fresh "Hrest" in
      pose proof (f_equal (@List.hd FieldValue (VNum 0)) H) as Hh;
      pose proof (f_equal (@List.tl FieldValue) H) as Ht;
      cbn [List.hd List.tl] in Hh, Ht;
      clear H; rename Ht into H;
      first [injection Hh as Hh | idtac]
  end.

(** X11.  A body records everything but the attached value and whether the
    query id was omitted or given as 0: two builder calls that produce the
    same body are the same builder with the same payload fields and the same
    stored query id. *)
Theorem body_determines_call (c1 c2 : BuilderCall)
    (m1 m2 : InternalMessage) :
  build c1 = OK m1 ->
  build c2 = OK m2 ->
  body m1 = body m2 ->
  normalizeCall c1 = normalizeCall c2.
Proof.
  intros H1 H2 Hb.
  apply build_spec in H1 as [V1 ->]. apply build_spec in H2 as [V2 ->].
  cbn [body] in Hb.
  pose proof (layout_operation c1 c2 Hb) as Hop.
  pose proof (readFields_encFields _ _ (outer_in_domain c1 V1)) as Ho1.
  pose proof (readFields_encFields _ _ (outer_in_domain c2 V2)) as Ho2.
  pose proof (f_equal c_bits Hb) as Hbits.
  pose proof (f_equal (fun c => match c_refs c with
                                | child :: _ => c_bits child
                                | [] => []
                                end) Hb) as Hchild.
  unfold layout in Hbits, Hchild. cbn [c_bits c_refs] in Hbits, Hchild.
  destruct c1 as [o1|o1|o1|o1|o1|o1|o1|o1|o1],
           c2 as [o2|o2|o2|o2|o2|o2|o2|o2|o2];
    try (vm_compute in Hop; discriminate Hop).
  all: cbn [outerSchema] in Ho1, Ho2, Hbits.
  all: try (rewrite Hbits in Ho1; rewrite Ho1 in Ho2;
            apply (f_equal (fun r : option (list FieldValue) =>
                              match r with Some l => l | None => [] end))
              in Ho2;
            cbv beta iota in Ho2).
  all: cbn [childSchema c_bits c_refs] in Hchild.
  all: try (pose proof (readFields_encFields _ _
                          (child_in_domain _ _ V1 eq_refl)) as Hc1;
            pose proof (readFields_encFields _ _
                          (child_in_domain _ _ V2 eq_refl)) as Hc2;
            rewrite Hchild in Hc1; rewrite Hc1 in Hc2;
            apply (f_equal (fun r : option (list FieldValue) =>
                              match r with Some l => l | None => [] end))
              in Hc2;
            cbv beta iota in Hc2).
  (* strategy reinvest against vault reinvest: the outer cells differ *)
  all: try (exfalso;
            cbn [outerValues encFields encField] in Hbits;
            rewrite ?app_nil_r in Hbits;
            first [ apply (f_equal (loadUint 32)) in Hbits
                  | symmetry in Hbits;
                    apply (f_equal (loadUint 32)) in Hbits ];
            rewrite <- ?app_assoc in Hbits;
            rewrite (loadUint_encUint 32) in Hbits
              by (split; [vm_compute; congruence | vm_compute; reflexivity]);
            first [ eapply (coins_never_reinvest_opcode _ _
                              (proj1 (proj2 V1)));
                    exact Hbits
                  | eapply (coins_never_reinvest_opcode _ _
                              (proj1 (proj2 V2)));
                    symmetry; exact Hbits ]).
  all: destruct o1, o2;
    cbn [outerValues childValues opcodeOf queryIdOf normalizeCall
         TonJettonTonStrategy.ReinvestOpts.totalReward
         TonJettonTonStrategy.ReinvestOpts.amountToSwap
         TonJettonTonStrategy.ReinvestOpts.limit
         TonJettonTonStrategy.ReinvestOpts.deadline
         TonJettonTonStrategy.ReinvestOpts.tonTargetBalance
         TonJettonTonStrategy.ReinvestOpts.jettonTargetBalance
         TonJettonTonStrategy.ReinvestOpts.queryId
         TonJettonTonStrategy.SetJettonWalletAddressOpts.walletAddress
         TonJettonTonStrategy.SetJettonWalletAddressOpts.queryId
         TonJettonTonStrategy.SetDepositLpWalletAddressOpts.walletAddress
         TonJettonTonStrategy.SetDepositLpWalletAddressOpts.queryId
         Vault.DepositNotificationOpts.jettonAmount
         Vault.DepositNotificationOpts.fromAddress
         Vault.DepositNotificationOpts.queryId
         Vault.ReinvestOpts.totalReward Vault.ReinvestOpts.amountToSwap
         Vault.ReinvestOpts.limit Vault.ReinvestOpts.deadline
         Vault.ReinvestOpts.tonTargetBalance
         Vault.ReinvestOpts.jettonTargetBalance
         Vault.ReinvestOpts.depositFee Vault.ReinvestOpts.depositFwdFee
         Vault.ReinvestOpts.transferFee Vault.ReinvestOpts.queryId
         Vault.SetStrategyAddressOpts.strategyAddress
         Vault.SetStrategyAddressOpts.queryId
         Vault.WithdrawManagementFeeOpts.receiver
         Vault.WithdrawManagementFeeOpts.amount
         Vault.WithdrawManagementFeeOpts.queryId
         Vault.SetIsLockedOpts.isLocked Vault.SetIsLockedOpts.queryId
         Vault.SetManagementFeeRateOpts.managementFeeRate
         Vault.SetManagementFeeRateOpts.queryId] in *;
    fields_from_values Ho2;
    try fields_from_values Hc2;
    congruence.
Qed.

(** The two lock setters above are the same call once normalised. *)
Lemma body_determines_call_witness :
  exists m1 m2,
    build (VaultSetIsLocked sample_set_is_locked) = OK m1 /\
    build (VaultSetIsLocked sample_set_is_locked_q0) = OK m2 /\
    body m1 = body m2 /\
    normalizeCall (VaultSetIsLocked sample_set_is_locked)
    = normalizeCall (VaultSetIsLocked sample_set_is_locked_q0).
Proof.
  assert (Hv : valid_call (VaultSetIsLocked sample_set_is_locked))
    by sample_valid.
  assert (Hv0 : valid_call (VaultSetIsLocked sample_set_is_locked_q0))
    by sample_valid.
  eexists. eexists.
  split; [exact (build_ok _ Hv)|]. split; [exact (build_ok _ Hv0)|].
  split; [reflexivity|].
  exact (body_determines_call _ _ _ _ (build_ok _ Hv) (build_ok _ Hv0)
           eq_refl).
Defined.
